(** * Voice-stress analysis of [AudioAnalyzer.tsx]

    A shallow embedding of the numeric core of the [AudioAnalyzer]
    component (src/src/components/AudioAnalyzer.tsx) and the properties of
    its feature extraction, score calculation, emotional-state classifier
    and rolling histories.

    Conventions of the embedding.
    - A JavaScript [number] is an exact rational ([Q]); there is no NaN and
      no infinity, and arithmetic is not rounded, except in
      [EmotionDetector.detectEmotion], which takes the rounding to doubles
      as a parameter.  [Math.pow] is exact on integer exponents and
      [Math.sqrt] is exact on squares of rationals; elsewhere both are
      parameters of the development ([pow_frac], [sqrt_irr]).
    - A [Uint8Array] is a [list byte] and a [number[]] is a [list Q].  The
      [Float32Array] filled by [getFloatFrequencyData] is a [list dB]: each
      bin holds a finite level in dB, or [-Infinity] when its magnitude is
      0.
    - React state: the three history arrays live in the component's state.
      A closure reads the arrays that were bound by [useState] when it was
      created ([rendered]); a functional updater [setX(prev => ...)] acts on
      the current state ([store]) and never changes the arrays the closure
      has already bound. *)

From Stdlib Require Import String Strings.Byte.
From Stdlib Require Import QArith Qminmax Qround Qabs Qpower.
From Stdlib Require Import ZArith List Bool Lia Lqa.
Import ListNotations.
Open Scope Q_scope.

(** ** JavaScript primitives *)

(** A bin of [getFloatFrequencyData]. *)
Inductive dB : Type :=
| NegInfinity
| Finite (q : Q).

Module JS.

(** [a < b] and [a > b] on numbers. *)
Definition ltb (a b : Q) : bool := negb (Qle_bool b a).
Definition gtb (a b : Q) : bool := ltb b a.

Definition Math_min (a b : Q) : Q := Qmin a b.
Definition Math_max (a b : Q) : Q := Qmax a b.
Definition Math_abs (a : Q) : Q := Qabs a.
Definition Math_floor (a : Q) : Z := Qfloor a.
(** [Math.round] rounds half-way cases up. *)
Definition Math_round (a : Q) : Z := Qfloor (a + (1 # 2)).

(** The [length] of an array, as a number. *)
Definition len {A} (l : list A) : Q := inject_Z (Z.of_nat (length l)).
Definition num (n : nat) : Q := inject_Z (Z.of_nat n).

(** [l.slice(-n)]: the last [n] elements (all of [l] when it is shorter). *)
Definition slice_last {A} (n : nat) (l : list A) : list A :=
  skipn (length l - n) l.

(** [l[i]] for an index inside the array. *)
Definition get (l : list Q) (i : nat) : Q := nth i l 0.

(** [frequencyData[i]] for an index inside the array. *)
Definition bin (l : list dB) (i : nat) : dB := nth i l NegInfinity.

(** [a > b] on bins: [-Infinity] is greater than nothing and below every
    finite level. *)
Definition dB_gtb (a b : dB) : bool :=
  match a, b with
  | Finite x, Finite y => gtb x y
  | Finite _, NegInfinity => true
  | NegInfinity, _ => false
  end.

(** [l.reduce(f, init)]. *)
Definition reduce {A B} (f : B -> A -> B) (init : B) (l : list A) : B :=
  fold_left f l init.

(** [for (let i = lo; i < hi; i++) s = body(s, i)]. *)
Definition for_range {S} (lo hi : nat) (body : S -> nat -> S) (init : S) : S :=
  fold_left body (seq lo (hi - lo)) init.

End JS.

(** ** Data model *)

Inductive EmotionalState : Type :=
| calm | stressed | confident | uncertain | deceptive | anxious.

(** [interface VoiceAnalysis]; [id] and [timestamp] come from the clock and
    the random generator and are left out. *)
Record VoiceAnalysis : Type := {
  stressLevel : Q;
  confidenceLevel : Q;
  pitchVariation : Q;
  speechRate : Q;
  volumeConsistency : Q;
  emotionalState : EmotionalState;
  sessionId : string
}.

(** The three [useState<number[]>([])] cells. *)
Record Histories : Type := {
  voiceHistory : list Q;
  pitchHistory : list Q;
  volumeHistory : list Q
}.

Definition initialHistories : Histories :=
  {| voiceHistory := []; pitchHistory := []; volumeHistory := [] |}.

(** What [analyzeAudio] reads from the analyser node: [dataArray] and
    [frequencyData], both allocated with [bufferLength] entries. *)
Record Frame : Type := {
  dataArray : list byte;
  frequencyData : list dB
}.

(** The functional updater [prev => [...prev.slice(-19), v]]. *)
Definition push (prev : list Q) (v : Q) : list Q :=
  JS.slice_last 19 prev ++ [v].

Section Analyzer.

(** [Math.pow] at a fractional exponent and [Math.sqrt] at a number that
    is not the square of a rational. *)
Variable pow_frac : Q -> Q -> Q.
Variable sqrt_irr : Q -> Q.

Definition Math_pow (b e : Q) : Q :=
  let r := Qred e in
  if (Z.pos (Qden r) =? 1)%Z then Qpower b (Qnum r) else pow_frac b e.

Definition Math_sqrt (x : Q) : Q :=
  let r := Qred x in
  let n := Qnum r in
  let d := Z.pos (Qden r) in
  if ((Z.sqrt n * Z.sqrt n =? n) && (Z.sqrt d * Z.sqrt d =? d))%Z
  then Z.sqrt n # Z.to_pos (Z.sqrt d)
  else sqrt_irr x.

(** *** Feature extraction *)

(** [Math.pow(10, v / 10)] for a bin [v]: [-Infinity / 10] is [-Infinity]
    and [Math.pow(10, -Infinity)] is 0. *)
Definition pow10_dB (v : dB) : Q :=
  match v with
  | NegInfinity => 0
  | Finite q => Math_pow 10 (q / 10)
  end.

(** One pass of the search loop over its state, [maxIndex] and [maxValue]:
    [if (frequencyData[i] > maxValue) { maxValue = frequencyData[i];
    maxIndex = i }]. *)
Definition detect_step (frequencyData : list dB)
    (s : nat * dB) (i : nat) : nat * dB :=
  let '(maxIndex, maxValue) := s in
  if JS.dB_gtb (JS.bin frequencyData i) maxValue
  then (i, JS.bin frequencyData i)
  else (maxIndex, maxValue).

Definition startIndex (frequencyData : list dB) : nat :=
  Z.to_nat (JS.Math_floor (80 * JS.len frequencyData / 22050)).
Definition endIndex (frequencyData : list dB) : nat :=
  Z.to_nat (JS.Math_floor (300 * JS.len frequencyData / 22050)).

Definition detect_maxIndex (frequencyData : list dB) : nat :=
  fst (JS.for_range (startIndex frequencyData)
         (Nat.min (endIndex frequencyData) (length frequencyData))
         (detect_step frequencyData) (0%nat, NegInfinity)).

Definition detectFundamentalFrequency (frequencyData : list dB) : Q :=
  (JS.num (detect_maxIndex frequencyData) * 22050) / JS.len frequencyData.

Definition highFreqStart (frequencyData : list dB) : nat :=
  Z.to_nat (JS.Math_floor (JS.len frequencyData * (6 # 10))).

Definition calculateHighFrequencyEnergy (frequencyData : list dB) : Q :=
  let energy :=
    JS.for_range (highFreqStart frequencyData) (length frequencyData)
      (fun energy i => energy + pow10_dB (JS.bin frequencyData i)) 0 in
  JS.Math_min
    (energy / (JS.len frequencyData - JS.num (highFreqStart frequencyData))) 1.

Definition centroid_step (frequencyData : list dB) (s : Q * Q) (i : nat) : Q * Q :=
  let '(weightedSum, magnitudeSum) := s in
  let magnitude := pow10_dB (JS.bin frequencyData i) in
  (weightedSum + JS.num i * magnitude, magnitudeSum + magnitude).

Definition calculateSpectralCentroid (frequencyData : list dB) : Q :=
  let '(weightedSum, magnitudeSum) :=
    JS.for_range 0 (length frequencyData) (centroid_step frequencyData) (0, 0) in
  if JS.gtb magnitudeSum 0 then weightedSum / magnitudeSum else 0.

(** The loop shared, up to the divisor, by [calculateJitter] and
    [calculateShimmer]. *)
Definition diff_sum (recent : list Q) : Q :=
  JS.for_range 1 (length recent)
    (fun acc i => acc + JS.Math_abs (JS.get recent i - JS.get recent (i - 1))) 0.

Definition calculateJitter (pitchHistory : list Q) (currentPitch : Q) : Q :=
  if (length pitchHistory <? 3)%nat then 0 else
  let recent := JS.slice_last 5 pitchHistory ++ [currentPitch] in
  let jitterSum := diff_sum recent in
  JS.Math_min (jitterSum / (JS.len recent - 1) / 100) 1.

Definition calculateShimmer (volumeHistory : list Q) (currentVolume : Q) : Q :=
  if (length volumeHistory <? 3)%nat then 0 else
  let recent := JS.slice_last 5 volumeHistory ++ [currentVolume] in
  let shimmerSum := diff_sum recent in
  JS.Math_min (shimmerSum / (JS.len recent - 1) / 50) 1.

(** *** Scores *)

Definition calculateStressLevel (highFreqEnergy jitter shimmer spectralCentroid : Q) : Q :=
  let stressScore :=
    highFreqEnergy * (3 # 10) +
    jitter * (25 # 100) +
    shimmer * (25 # 100) +
    (if JS.gtb spectralCentroid (6 # 10) then 2 # 10 else 0) in
  JS.Math_min (JS.Math_max stressScore 0) 1.

Definition calculateConfidenceLevel (volume jitter shimmer : Q) : Q :=
  let volumeScore :=
    if JS.gtb volume 20 && JS.ltb volume 80 then 4 # 10 else 2 # 10 in
  let stabilityScore := (1 - jitter) * (3 # 10) + (1 - shimmer) * (3 # 10) in
  JS.Math_min (JS.Math_max (volumeScore + stabilityScore) 0) 1.

Definition mean_of (l : list Q) : Q :=
  JS.reduce (fun sum val => sum + val) 0 l / JS.len l.

Definition variance_of (l : list Q) : Q :=
  let mean := mean_of l in
  JS.reduce (fun sum val => sum + Math_pow (val - mean) 2) 0 l / JS.len l.

Definition calculatePitchVariation (pitchHistory : list Q) : Q :=
  if (length pitchHistory <? 5)%nat then 0 else
  let variance := variance_of pitchHistory in
  JS.Math_min (Math_sqrt variance / 100) 1.

Definition calculateSpeechRate (voiceHistory : list Q) : Q :=
  if (length voiceHistory <? 10)%nat then 1 # 2 else
  let speechSegments := length (filter (fun vol => JS.gtb vol 10) voiceHistory) in
  JS.Math_min (JS.num speechSegments / JS.len voiceHistory) 1.

Definition calculateVolumeConsistency (volumeHistory : list Q) : Q :=
  if (length volumeHistory <? 5)%nat then 1 else
  let variance := variance_of volumeHistory in
  JS.Math_max (1 - Math_sqrt variance / 50) 0.

(** *** Classifier *)

Definition determineEmotionalState (stress confidence pitchVar speechRate : Q)
  : EmotionalState :=
  if JS.gtb stress (7 # 10) then stressed
  else if JS.gtb confidence (7 # 10) && JS.ltb stress (3 # 10) then confident
  else if JS.gtb pitchVar (6 # 10) && JS.ltb speechRate (4 # 10) then uncertain
  else if JS.gtb stress (5 # 10) && JS.gtb pitchVar (5 # 10) then anxious
  else if JS.gtb stress (4 # 10) && JS.ltb confidence (4 # 10)
          && JS.gtb pitchVar (4 # 10) then deceptive
  else calm.

(** *** The per-frame pipeline *)

(** The three [setXHistory(prev => ...)] calls of one analysis, as one
    update of the state. *)
Definition updateHistories (fundamentalFreq volume : Q) (prev : Histories)
  : Histories :=
  {| voiceHistory := push (voiceHistory prev) volume;
     pitchHistory := push (pitchHistory prev) fundamentalFreq;
     volumeHistory := push (volumeHistory prev) volume |}.

(** [performVoiceStressAnalysis], run by a closure that has bound the
    histories [rendered].  It returns the record handed to
    [onVoiceAnalyzed] and the state update it has queued. *)
Definition performVoiceStressAnalysis (rendered : Histories) (sid : string)
    (timeData : list byte) (frequencyData : list dB) (volume : Q)
  : VoiceAnalysis * (Histories -> Histories) :=
  let fundamentalFreq := detectFundamentalFrequency frequencyData in
  let highFreqEnergy := calculateHighFrequencyEnergy frequencyData in
  let spectralCentroid := calculateSpectralCentroid frequencyData in
  let jitter := calculateJitter (pitchHistory rendered) fundamentalFreq in
  let shimmer := calculateShimmer (volumeHistory rendered) volume in
  let update := updateHistories fundamentalFreq volume in
  let stressLevel := calculateStressLevel highFreqEnergy jitter shimmer spectralCentroid in
  let confidenceLevel := calculateConfidenceLevel volume jitter shimmer in
  let pitchVariation := calculatePitchVariation (pitchHistory rendered) in
  let speechRate := calculateSpeechRate (voiceHistory rendered) in
  let volumeConsistency := calculateVolumeConsistency (volumeHistory rendered) in
  let emotionalState :=
    determineEmotionalState stressLevel confidenceLevel pitchVariation speechRate in
  ({| stressLevel := stressLevel;
      confidenceLevel := confidenceLevel;
      pitchVariation := pitchVariation;
      speechRate := speechRate;
      volumeConsistency := volumeConsistency;
      emotionalState := emotionalState;
      sessionId := sid |},
   update).

(** The audio level (0-100) of a frame. *)
Definition audioLevelOf (f : Frame) : Q :=
  let bufferLength := JS.len (dataArray f) in
  let average :=
    JS.reduce (fun sum value => sum + inject_Z (Z.of_N (Byte.to_N value))) 0
      (dataArray f) / bufferLength in
  inject_Z (JS.Math_round ((average / 255) * 100)).

(** One run of [analyzeAudio] after its first line (analyser present, component
    active): the record emitted, if any, and the state afterwards. *)
Definition analyzeAudio (rendered store : Histories) (sid : string) (f : Frame)
  : option VoiceAnalysis * Histories :=
  let audioLevel := audioLevelOf f in
  if JS.gtb audioLevel 5 then
    let '(analysis, update) :=
      performVoiceStressAnalysis rendered sid (dataArray f) (frequencyData f) audioLevel in
    (Some analysis, update store)
  else (None, store).

(** A run of [analyzeAudio] whose closure has bound the current state: the
    first run of a loop started on that state. *)
Definition tick (sid : string) (h : Histories) (f : Frame)
  : option VoiceAnalysis * Histories :=
  analyzeAudio h h sid f.

(** The state after a sequence of frames, starting from [h].  The updaters
    do not read the arrays of the closure, so the state is the same
    whichever render the running loop was started in. *)
Definition run (sid : string) (h : Histories) (frames : list Frame) : Histories :=
  fold_left (fun h f => snd (tick sid h f)) frames h.

End Analyzer.

(** * Specification-side definitions *)

(** The sum of a list of numbers, and the accumulating loops as sums. *)
Fixpoint sumQ (l : list Q) : Q :=
  match l with
  | [] => 0
  | x :: t => x + sumQ t
  end.

(** ** Clamping, jitter and shimmer *)

(** Clamping to [0,1], as the specification writes it. *)
Definition clamp01 (x : Q) : Q :=
  if Qlt_le_dec x 0 then 0 else if Qlt_le_dec 1 x then 1 else x.

Module Instability.

(** The formula in the words of the specification. *)

(** The last [n] samples of a history. *)
Definition last_samples (n : nat) (l : list Q) : list Q :=
  rev (firstn n (rev l)).

(** The sum of the absolute differences of consecutive points. *)
Fixpoint consecutive_abs_diffs (l : list Q) : Q :=
  match l with
  | a :: (b :: _) as t => Qabs (b - a) + consecutive_abs_diffs t
  | _ => 0
  end.

(** Last five samples, then the current value; mean absolute step over
    [divisor], clamped. *)
Definition instability (divisor : Q) (history : list Q) (current : Q) : Q :=
  let points := last_samples 5 history ++ [current] in
  let count := JS.len points in
  clamp01 (consecutive_abs_diffs points / (count - 1) / divisor).

End Instability.

(** ** The ordered rule list *)

Module DecisionList.

(** The ordered rules as the specification words them; [rule n] is the
    condition of rule [n], [label n] its verdict. *)
Definition rule (n : nat) (stress confidence pitchVar speechRate : Q) : Prop :=
  match n with
  | 1%nat => 7 # 10 < stress
  | 2%nat => 7 # 10 < confidence /\ stress < 3 # 10
  | 3%nat => 6 # 10 < pitchVar /\ speechRate < 4 # 10
  | 4%nat => 5 # 10 < stress /\ 5 # 10 < pitchVar
  | 5%nat => 4 # 10 < stress /\ confidence < 4 # 10 /\ 4 # 10 < pitchVar
  | _ => False
  end.

Definition label (n : nat) : EmotionalState :=
  match n with
  | 1%nat => stressed
  | 2%nat => confident
  | 3%nat => uncertain
  | 4%nat => anxious
  | 5%nat => deceptive
  | _ => calm
  end.

(** [n] is the first rule that matches. *)
Definition first_match (n : nat) (s c p r : Q) : Prop :=
  rule n s c p r /\ forall m, (m < n)%nat -> ~ rule m s c p r.

Definition no_match (s c p r : Q) : Prop :=
  forall m, ~ rule m s c p r.

End DecisionList.

(** ** The search band *)

(** The frequency mapped to bin [i] of [n] bins. *)
Definition freq (n i : nat) : Q := JS.num i * 22050 / JS.num n.

(** The order of bins: [-Infinity] lies below every finite level. *)
Definition dB_le (a b : dB) : Prop :=
  match a, b with
  | NegInfinity, _ => True
  | Finite x, Finite y => x <= y
  | Finite _, NegInfinity => False
  end.

Definition dB_lt (a b : dB) : Prop :=
  match a, b with
  | NegInfinity, Finite _ => True
  | Finite x, Finite y => x < y
  | _, NegInfinity => False
  end.

(** [i] holds the largest value among the bins that satisfy [range], and is
    the lowest such bin. *)
Definition first_peak (range : nat -> Prop) (fd : list dB) (i : nat) : Prop :=
  range i /\
  forall j, range j ->
    dB_le (JS.bin fd j) (JS.bin fd i) /\
    ((j < i)%nat -> dB_lt (JS.bin fd j) (JS.bin fd i)).

Module Band.

(** The search band in the words of the specification: the bins whose
    mapped frequency falls in [80 Hz, 300 Hz]. *)
Definition in_band (fd : list dB) (i : nat) : Prop :=
  (i < length fd)%nat /\
  80 <= freq (length fd) i /\ freq (length fd) i <= 300.

(** [r] is the frequency of the first peak of the band, and 0 when the
    band holds no bin. *)
Definition fundamental (fd : list dB) (r : Q) : Prop :=
  (forall i, first_peak (in_band fd) fd i -> r == freq (length fd) i) /\
  ((forall i, ~ in_band fd i) -> r == 0).

End Band.

(** The bins the loop of [detectFundamentalFrequency] visits. *)
Definition searched (fd : list dB) (i : nat) : Prop :=
  (startIndex fd <= i < Nat.min (endIndex fd) (length fd))%nat.

(** ** The spectral centroid *)

Module Centroid.

(** The power-weighted mean bin index in the words of the specification:
    sum of i * 10^(db_i/10) over sum of 10^(db_i/10), over all bins, and 0
    when the total power is 0.  The power 10^(db/10) of a bin at
    [-Infinity] is 0. *)
Section Power.
Variable pow_frac : Q -> Q -> Q.

Definition power (db : dB) : Q :=
  match db with
  | NegInfinity => 0
  | Finite level => Math_pow pow_frac 10 (level / 10)
  end.

Definition sum_bins (n : nat) (F : nat -> Q) : Q := sumQ (map F (seq 0 n)).

Definition total_power (fd : list dB) : Q :=
  sum_bins (length fd) (fun i => power (JS.bin fd i)).

Definition weighted_power (fd : list dB) : Q :=
  sum_bins (length fd) (fun i => JS.num i * power (JS.bin fd i)).

Definition mean_bin_index (fd : list dB) : Q :=
  if Qlt_le_dec 0 (total_power fd)
  then weighted_power fd / total_power fd
  else 0.
End Power.

End Centroid.

(** ** Bounds of the scores and of the stored levels *)

Definition unit_interval (x : Q) : Prop := 0 <= x /\ x <= 1.

Definition in_level_range (v : Q) : Prop := 5 < v /\ v <= 100.

Definition levels_in_range (h : Histories) : Prop :=
  Forall in_level_range (volumeHistory h) /\
  Forall in_level_range (voiceHistory h).

(** * Sample data *)

(** ** Sample platform functions

    Rational stand-ins for the two parameters, used to run the model on
    concrete frames: a fractional power is rounded down to the integer
    power below it, an irrational square root to a rational below it. *)

Definition pow_floor (b e : Q) : Q := Qpower b (Qfloor e).
Definition sqrt_floor (x : Q) : Q :=
  Z.sqrt (Qnum x * Z.pos (Qden x)) # Qden x.

(** A frame of 1024 bins whose byte data are all [b] and whose spectrum is
    -100 dB everywhere except 0 dB at bin [peak]. *)
Definition spectrum_peak (peak : nat) : list dB :=
  repeat (Finite (-100 # 1)) peak ++ [Finite 0]
    ++ repeat (Finite (-100 # 1)) (1023 - peak).

Definition frame_of (b : byte) (peak : nat) : Frame :=
  {| dataArray := repeat b 1024; frequencyData := spectrum_peak peak |}.

(** Silence, and a voiced frame of level 20 with its peak at bin 7. *)
Definition silent_frame : Frame := frame_of x00 7.
Definition voiced_frame : Frame := frame_of x32 7.

(** Histories as they stand after six voiced frames with peaks at bins 4,
    12, 4, 12, 4 and 12. *)
Definition sample_histories : Histories :=
  {| voiceHistory := [20; 20; 20; 20; 20; 20];
     pitchHistory := [11025 # 128; 33075 # 128; 11025 # 128;
                      33075 # 128; 11025 # 128; 33075 # 128];
     volumeHistory := [20; 20; 20; 20; 20; 20] |}.

(** Four voiced frames with their peak at bin 4 (86.1 Hz) have been
    analysed. *)
Definition four_pitches : Histories :=
  {| voiceHistory := [20; 20; 20; 20];
     pitchHistory := [freq 1024 4; freq 1024 4; freq 1024 4; freq 1024 4];
     volumeHistory := [20; 20; 20; 20] |}.

(** The fifth frame has its peak at bin 12 (258.4 Hz). *)
Definition fifth_frame : Frame := frame_of x32 12.

(** * Further definitions *)

(** The frames of a sequence that pass the silence threshold. *)
Definition audible (f : Frame) : bool := JS.gtb (audioLevelOf f) 5.

(** All three histories hold [n] entries. *)
Definition history_lengths (h : Histories) (n : nat) : Prop :=
  length (voiceHistory h) = n /\
  length (pitchHistory h) = n /\
  length (volumeHistory h) = n.

(** A loud frame with a flat spectrum at 0 dB, and histories whose pitch
    and volume alternate between extremes. *)
Definition flat_frame : Frame :=
  {| dataArray := repeat x32 1024; frequencyData := repeat (Finite 0) 1024 |}.

Definition unstable_histories : Histories :=
  {| voiceHistory := [100; 6; 100; 6; 100];
     pitchHistory := [freq 1024 3; freq 1024 12; freq 1024 3;
                      freq 1024 12; freq 1024 3];
     volumeHistory := [100; 6; 100; 6; 100] |}.

(** ** More JavaScript primitives *)

Module JSX.

(** [l[i]] for a whole number [i]: [None] is [undefined]. *)
Definition index {A} (l : list A) (i : Z) : option A :=
  if (i <? 0)%Z then None else nth_error l (Z.to_nat i).

(** [l.includes(s)] on an array of strings. *)
Definition includes (l : list string) (s : string) : bool :=
  existsb (String.eqb s) l.

Section Keyed.

Variable K : Type.
Variable eqb : K -> K -> bool.

(** [set.add(k)] on a [Set] listed in insertion order. *)
Definition set_add (s : list K) (k : K) : list K :=
  if existsb (eqb k) s then s else s ++ [k].

(** [Array.from(new Set(l))]. *)
Definition Set_of (l : list K) : list K := fold_left set_add l [].

(** [acc[k] = (acc[k] || 0) + 1] on an object listed as its entries, in
    insertion order. *)
Fixpoint bump (k : K) (acc : list (K * nat)) : list (K * nat) :=
  match acc with
  | [] => [(k, 1%nat)]
  | (k', n) :: t => if eqb k' k then (k', S n) :: t else (k', n) :: bump k t
  end.

(** [l.reduce((acc, item) => { acc[key(item)] = (acc[key(item)] || 0) + 1;
    return acc }, {})], then [Object.entries]. *)
Definition countBy {A} (key : A -> K) (l : list A) : list (K * nat) :=
  fold_left (fun acc item => bump (key item) acc) l [].

(** [entries.sort(([,a], [,b]) => b - a)].  [Array.prototype.sort] is
    stable, so the result is the one descending order that keeps entries of
    equal count in their former order; insertion computes it. *)
Fixpoint insert_desc (x : K * nat) (l : list (K * nat)) : list (K * nat) :=
  match l with
  | [] => [x]
  | y :: t => if (snd y <? snd x)%nat then x :: y :: t else y :: insert_desc x t
  end.

Definition sort_desc (l : list (K * nat)) : list (K * nat) :=
  fold_left (fun acc x => insert_desc x acc) l [].

(** [acc[k] || 0]: the count stored for [k], 0 when there is no entry. *)
Definition get_count (k : K) (acc : list (K * nat)) : nat :=
  match find (fun e => eqb (fst e) k) acc with
  | Some e => snd e
  | None => 0%nat
  end.

(** The number of items of [l] whose key is [k]. *)
Definition count_of {A} (key : A -> K) (k : K) (l : list A) : nat :=
  length (filter (fun item => eqb (key item) k) l).

End Keyed.

End JSX.

Arguments JSX.set_add {K} eqb s k.
Arguments JSX.Set_of {K} eqb l.
Arguments JSX.bump {K} eqb k acc.
Arguments JSX.countBy {K} eqb {A} key l.
Arguments JSX.insert_desc {K} x l.
Arguments JSX.sort_desc {K} l.
Arguments JSX.get_count {K} eqb k acc.
Arguments JSX.count_of {K} eqb {A} key k l.

(** ** Records of the visual path *)

Module ER.

(** [interface EmotionResult], without [id] and [timestamp]. *)
Record EmotionResult : Type := {
  emotion : string;
  confidence : Q;
  sessionId : string
}.

End ER.

(** [a === b] on emotional states. *)
Definition state_eqb (a b : EmotionalState) : bool :=
  match a, b with
  | calm, calm | stressed, stressed | confident, confident
  | uncertain, uncertain | deceptive, deceptive | anxious, anxious => true
  | _, _ => false
  end.

(** ** The dashboard *)

Module Dashboard.

Definition averageStressLevel (voiceData : list VoiceAnalysis) : Q :=
  if (0 <? length voiceData)%nat
  then JS.reduce (fun sum item => sum + stressLevel item) 0 voiceData
       / JS.len voiceData
  else 0.

Definition averageVoiceConfidence (voiceData : list VoiceAnalysis) : Q :=
  if (0 <? length voiceData)%nat
  then JS.reduce (fun sum item => sum + confidenceLevel item) 0 voiceData
       / JS.len voiceData
  else 0.

Definition averageConfidence (data : list ER.EmotionResult) : Q :=
  if (0 <? length data)%nat
  then JS.reduce (fun sum item => sum + ER.confidence item) 0 data / JS.len data
  else 0.

Definition voiceStateCounts (voiceData : list VoiceAnalysis)
  : list (EmotionalState * nat) :=
  JSX.countBy state_eqb emotionalState voiceData.

(** [Object.entries(voiceStateCounts).sort(...)[0]?.[0] || 'calm']. *)
Definition mostCommonVoiceState (voiceData : list VoiceAnalysis) : EmotionalState :=
  match JSX.sort_desc (voiceStateCounts voiceData) with
  | (state, _) :: _ => state
  | [] => calm
  end.

(** One [if (...) { riskScore += w; factors.push(msg) }]. *)
Definition add_factor (fires : bool) (w : Q) (msg : string)
    (s : Q * list string) : Q * list string :=
  if fires then (fst s + w, snd s ++ [msg]) else s.

Definition calculateDeceptionRisk (data : list ER.EmotionResult)
    (voiceData : list VoiceAnalysis) : Q * list string :=
  let recentEmotions := JS.slice_last 5 data in
  let recentVoice := JS.slice_last 3 voiceData in
  let s := (0, []) in
  let highRiskEmotions :=
    filter (fun e => JSX.includes ["fear"; "guilt"; "contempt"; "angry"]%string
                       (ER.emotion e)) recentEmotions in
  let s := add_factor (2 <? length highRiskEmotions)%nat 30
             "Multiple stress emotions detected" s in
  let highStress := filter (fun v => JS.gtb (stressLevel v) (7 # 10)) recentVoice in
  let s := add_factor (1 <? length highStress)%nat 25
             "Elevated voice stress patterns" s in
  let deceptiveVoice :=
    filter (fun v => state_eqb (emotionalState v) deceptive) recentVoice in
  let s := add_factor (0 <? length deceptiveVoice)%nat 35
             "Deceptive voice patterns detected" s in
  let lowConfidence :=
    filter (fun v => JS.ltb (confidenceLevel v) (4 # 10)) recentVoice in
  let s := add_factor (1 <? length lowConfidence)%nat 20
             "Low confidence indicators" s in
  (JS.Math_min (fst s) 100, snd s).

End Dashboard.

(** ** The data logger *)

Module DataLogger.

Definition sessions (data : list ER.EmotionResult) (voiceData : list VoiceAnalysis)
  : list string :=
  JSX.Set_of String.eqb (map ER.sessionId data ++ map sessionId voiceData).

(** What the effect stores in [filteredData] and [filteredVoiceData]. *)
Definition filteredData (selectedSession : string) (data : list ER.EmotionResult)
  : list ER.EmotionResult :=
  if String.eqb selectedSession "all" then data
  else filter (fun item => String.eqb (ER.sessionId item) selectedSession) data.

Definition filteredVoiceData (selectedSession : string)
    (voiceData : list VoiceAnalysis) : list VoiceAnalysis :=
  if String.eqb selectedSession "all" then voiceData
  else filter (fun item => String.eqb (sessionId item) selectedSession) voiceData.

Definition emotionStats (filtered : list ER.EmotionResult) : list (string * nat) :=
  JSX.countBy String.eqb ER.emotion filtered.

Definition voiceStats (filtered : list VoiceAnalysis)
  : list (EmotionalState * nat) :=
  JSX.countBy state_eqb emotionalState filtered.

End DataLogger.

(** ** The mock detector of the web component *)

Module EmotionDetector.

Definition emotions : list string :=
  ["neutral"; "happy"; "sad"; "angry"; "surprised"; "fearful"; "disgusted"]%string.

Section Doubles.

(** The double nearest to a number.  The confidence
    [Math.random() * 0.4 + 0.6] comes as close to 1 as rounding decides (at
    [Math.random() = 1 - 2^-53] the sum is rounded to 1), so its two
    literals and its two operations are rounded. *)
Variable fl : Q -> Q.

(** [detectEmotion], given the two values [Math.random()] returns. *)
Definition detectEmotion (random1 random2 : Q) : option string * Q :=
  let randomEmotion :=
    JSX.index emotions (JS.Math_floor (random1 * JS.len emotions)) in
  let randomConfidence := fl (fl (random2 * fl (4 # 10)) + fl (6 # 10)) in
  (randomEmotion, randomConfidence).

End Doubles.

End EmotionDetector.

(** A sample rounding: to the nearest multiple of 2^-53, the spacing of the
    doubles between 1/2 and 1, ties upwards. *)
Definition fl_sample (x : Q) : Q :=
  inject_Z (Qfloor (x * inject_Z (2 ^ 53) + (1 # 2))) / inject_Z (2 ^ 53).

(** ** The command-line detector *)

Module CLI.

Definition emotions : list string :=
  ["neutral"; "happy"; "sad"; "angry"; "surprised"; "fearful"; "disgusted"]%string.

(** An entry of [thoughtMappings]. *)
Record Mapping : Type := {
  microExpression : string;
  thoughtInference : string;
  riskLevel : string;
  indicators : list string
}.

Definition thoughtMappings : list (string * Mapping) :=
  [("fear",
    {| microExpression := "Eye widening, rapid blinking";
       thoughtInference := "Hiding something, worried about exposure";
       riskLevel := "HIGH";
       indicators := ["Pupil dilation"; "Eyebrow flash"; "Mouth tension"] |});
   ("disgusted",
    {| microExpression := "Nose wrinkle, upper lip raise";
       thoughtInference := "Rejecting idea, disagreeing internally";
       riskLevel := "MEDIUM";
       indicators := ["Nostril flare"; "Mouth corner down"; "Eye squint"] |});
   ("contempt",
    {| microExpression := "Half-smile/sneer, eye roll";
       thoughtInference := "Believes they're smarter, dismissive";
       riskLevel := "HIGH";
       indicators := ["Unilateral lip raise"; "Head tilt back"; "Narrowed eyes"] |});
   ("guilt",
    {| microExpression := "Downward gaze, shoulder shrug";
       thoughtInference := "Regret or knowledge of wrongdoing";
       riskLevel := "VERY HIGH";
       indicators := ["Hand to face"; "Lip compression"; "Chin raise"] |});
   ("angry",
    {| microExpression := "Brow tension, jaw clench";
       thoughtInference := "Defensive, frustrated, possibly lying";
       riskLevel := "HIGH";
       indicators := ["Furrowed brow"; "Tight lips"; "Nostril flare"] |});
   ("surprised",
    {| microExpression := "Eyebrow raise, mouth open";
       thoughtInference := "Unexpected question, caught off guard";
       riskLevel := "MEDIUM";
       indicators := ["Wide eyes"; "Dropped jaw"; "Forehead wrinkles"] |});
   ("happy",
    {| microExpression := "Genuine smile, eye crinkles";
       thoughtInference := "Confident, truthful, comfortable";
       riskLevel := "LOW";
       indicators := ["Duchenne smile"; "Raised cheeks"; "Crow's feet"] |});
   ("sad",
    {| microExpression := "Lip corner down, brow furrow";
       thoughtInference := "Remorse, disappointment, emotional stress";
       riskLevel := "MEDIUM";
       indicators := ["Drooping eyelids"; "Lip tremor"; "Chin raise"] |});
   ("neutral",
    {| microExpression := "Relaxed facial muscles";
       thoughtInference := "Calm, processing information normally";
       riskLevel := "LOW";
       indicators := ["Steady gaze"; "Relaxed jaw"; "Natural breathing"] |})]%string.

(** [this.thoughtMappings[key]] for a key that names no inherited
    property of an object. *)
Fixpoint mappingOf (table : list (string * Mapping)) (key : string)
  : option Mapping :=
  match table with
  | [] => None
  | (k, m) :: t => if String.eqb k key then Some m else mappingOf t key
  end.

(** An entry of [emotionHistory], without its [timestamp]. *)
Record Detection : Type := {
  emotion : string;
  confidence : Q
}.

(** The fields of the object that [updateAnalysis] writes. *)
Record State : Type := {
  emotionHistory : list Detection;
  detectionCount : nat;
  currentEmotion : string;
  currentConfidence : Q
}.

Definition initialState : State :=
  {| emotionHistory := [];
     detectionCount := 0;
     currentEmotion := "neutral";
     currentConfidence := 0 |}.

(** [detectEmotion], given [Math.sin(time / 10000)] and the two values
    [Math.random()] returns. *)
Definition detectEmotion (sine random1 random2 : Q) : option string * Q :=
  let variation := sine * (3 # 10) in
  let noise := (random1 - (5 # 10)) * (4 # 10) in
  let emotionIndex :=
    JS.Math_floor ((variation + noise + 1) * JS.len emotions / 2) in
  let emotionIndex :=
    Z.max 0 (Z.min (Z.of_nat (length emotions) - 1) emotionIndex) in
  let emotion := JSX.index emotions emotionIndex in
  let confidence := (6 # 10) + random2 * (3 # 10) in
  (emotion, confidence).

(** [updateAnalysis], up to the redrawing of the boxes. *)
Definition updateAnalysis (st : State) (detection : Detection) : State :=
  let history := emotionHistory st ++ [detection] in
  let history := if (20 <? length history)%nat then tl history else history in
  {| emotionHistory := history;
     detectionCount := S (detectionCount st);
     currentEmotion := emotion detection;
     currentConfidence := confidence detection |}.

(** [getpsychologicalAssessment]: the chalk colour and the message. *)
Definition getpsychologicalAssessment (st : State) : string * string :=
  let recentEmotions := JS.slice_last 5 (emotionHistory st) in
  let stressEmotions :=
    filter (fun e => JSX.includes ["angry"; "fearful"; "disgusted"]%string (emotion e))
      recentEmotions in
  let positiveEmotions :=
    filter (fun e => JSX.includes ["happy"; "surprised"]%string (emotion e))
      recentEmotions in
  if (3 <? length stressEmotions)%nat
  then ("red", "High stress indicators detected")%string
  else if (3 <? length positiveEmotions)%nat
  then ("green", "Positive emotional state")%string
  else ("yellow", "Neutral psychological state")%string.

(** The colour chosen by [updateThoughtDisplay]; [None] when the current
    emotion has no mapping and the box is left as it is. *)
Definition riskColor (st : State) : option string :=
  match mappingOf thoughtMappings (currentEmotion st) with
  | None => None
  | Some mapping =>
      Some (if String.eqb (riskLevel mapping) "VERY HIGH" then "red"
            else if String.eqb (riskLevel mapping) "HIGH" then "yellow"
            else if String.eqb (riskLevel mapping) "MEDIUM" then "cyan"
            else "green")%string
  end.

(** The two glyphs of the confidence bar. *)
Inductive Glyph : Type := full_block | light_shade.

(** [glyph.repeat(count)]: a negative count raises a [RangeError]. *)
Definition repeat_glyph (g : Glyph) (count : Z) : option (list Glyph) :=
  if (count <? 0)%Z then None else Some (repeat g (Z.to_nat count)).

(** [confidenceBar] and [confidenceEmpty] of [updateEmotionDisplay]. *)
Definition confidenceBars (st : State) : option (list Glyph * list Glyph) :=
  match repeat_glyph full_block (JS.Math_floor (currentConfidence st * 20)) with
  | None => None
  | Some confidenceBar =>
      match repeat_glyph light_shade
              (20 - JS.Math_floor (currentConfidence st * 20)) with
      | None => None
      | Some confidenceEmpty => Some (confidenceBar, confidenceEmpty)
      end
  end.

End CLI.

(** ** Records as the analyser classifies them *)

(** The state of the record is the verdict of the classifier on its own
    scores. *)
Definition classified (a : VoiceAnalysis) : Prop :=
  emotionalState a =
  determineEmotionalState (stressLevel a) (confidenceLevel a)
    (pitchVariation a) (speechRate a).

(** The state after a sequence of detections. *)
Definition cli_run (st : CLI.State) (detections : list CLI.Detection) : CLI.State :=
  fold_left CLI.updateAnalysis detections st.

(** The numbers of stress and of positive emotions among the last five
    detections. *)
Definition recent_stress (st : CLI.State) : nat :=
  length (filter (fun e => JSX.includes ["angry"; "fearful"; "disgusted"]%string
                             (CLI.emotion e))
            (JS.slice_last 5 (CLI.emotionHistory st))).

Definition recent_positive (st : CLI.State) : nat :=
  length (filter (fun e => JSX.includes ["happy"; "surprised"]%string (CLI.emotion e))
            (JS.slice_last 5 (CLI.emotionHistory st))).

(** A command-line state after four angry detections and a happy one. *)
Definition angry_state : CLI.State :=
  cli_run CLI.initialState
    [{| CLI.emotion := "angry"; CLI.confidence := 7 # 10 |};
     {| CLI.emotion := "angry"; CLI.confidence := 7 # 10 |};
     {| CLI.emotion := "happy"; CLI.confidence := 8 # 10 |};
     {| CLI.emotion := "angry"; CLI.confidence := 7 # 10 |};
     {| CLI.emotion := "angry"; CLI.confidence := 65 # 100 |}].

(** * Properties *)

(** ** Basic facts about the primitives *)

Lemma ltb_spec (a b : Q) : JS.ltb a b = true <-> a < b.
Proof.
  unfold JS.ltb. rewrite negb_true_iff.
  split; intro H.
  - apply Qnot_le_lt. intro Hle. apply Qle_bool_iff in Hle. congruence.
  - destruct (Qle_bool b a) eqn:E; [|reflexivity].
    apply Qle_bool_iff in E. exfalso. apply (Qlt_not_le _ _ H E).
Qed.

Lemma ltb_false (a b : Q) : JS.ltb a b = false <-> b <= a.
Proof.
  unfold JS.ltb. rewrite negb_false_iff. apply Qle_bool_iff.
Qed.

Lemma gtb_spec (a b : Q) : JS.gtb a b = true <-> b < a.
Proof. apply ltb_spec. Qed.

Lemma gtb_false (a b : Q) : JS.gtb a b = false <-> a <= b.
Proof. apply ltb_false. Qed.

Lemma len_nonneg {A} (l : list A) : 0 <= JS.len l.
Proof.
  unfold JS.len. change 0 with (inject_Z 0). rewrite <- Zle_Qle. lia.
Qed.

Lemma num_nonneg (n : nat) : 0 <= JS.num n.
Proof.
  unfold JS.num. change 0 with (inject_Z 0). rewrite <- Zle_Qle. lia.
Qed.

Lemma Qdiv_nonneg (a b : Q) : 0 <= a -> 0 <= b -> 0 <= a / b.
Proof.
  intros Ha Hb. unfold Qdiv. apply Qmult_le_0_compat; [exact Ha|].
  apply Qinv_le_0_compat. exact Hb.
Qed.

Lemma fold_add_sumQ {A} (g : A -> Q) (l : list A) (a : Q) :
  fold_left (fun acc x => acc + g x) l a == a + sumQ (map g l).
Proof.
  revert a. induction l as [|x l IH]; intro a; simpl.
  - ring.
  - rewrite IH. ring.
Qed.

Lemma sumQ_nonneg (l : list Q) : Forall (fun x => 0 <= x) l -> 0 <= sumQ l.
Proof.
  induction 1 as [|x l Hx _ IH]; simpl.
  - apply Qle_refl.
  - lra.
Qed.

Lemma sumQ_le_const (c : Q) (l : list Q) :
  Forall (fun x => x <= c) l -> sumQ l <= JS.len l * c.
Proof.
  induction 1 as [|x l Hx _ IH].
  - simpl. unfold JS.len. simpl. change (inject_Z 0) with 0. lra.
  - simpl sumQ. unfold JS.len in *. simpl length.
    rewrite Nat2Z.inj_succ, <- Z.add_1_r, inject_Z_plus.
    change (inject_Z 1) with 1. lra.
Qed.

(** ** Rolling histories *)

Lemma slice_last_length {A} (n : nat) (l : list A) :
  length (JS.slice_last n l) = Nat.min n (length l).
Proof. unfold JS.slice_last. rewrite length_skipn. lia. Qed.

Lemma slice_last_short {A} (n : nat) (l : list A) :
  (length l <= n)%nat -> JS.slice_last n l = l.
Proof.
  intro H. unfold JS.slice_last.
  replace (length l - n)%nat with 0%nat by lia. reflexivity.
Qed.

Lemma slice_last_slice_last {A} (n m : nat) (l : list A) :
  (n <= m)%nat -> JS.slice_last n (JS.slice_last m l) = JS.slice_last n l.
Proof.
  intro H. unfold JS.slice_last.
  rewrite skipn_skipn, length_skipn. f_equal. lia.
Qed.

Lemma push_slice_last (h : list Q) (v : Q) :
  push h v = JS.slice_last 20 (h ++ [v]).
Proof.
  unfold push, JS.slice_last.
  rewrite length_app, skipn_app. simpl length.
  replace (length h + 1 - 20)%nat with (length h - 19)%nat by lia.
  replace (length h - 19 - length h)%nat with 0%nat by lia.
  reflexivity.
Qed.

Lemma push_length (h : list Q) (v : Q) :
  length (push h v) = Nat.min 20 (length h + 1).
Proof.
  rewrite push_slice_last, slice_last_length, length_app. reflexivity.
Qed.

(** Pushing a sequence of values one after the other keeps the last 20. *)
Lemma fold_push_slice_last (vs : list Q) :
  fold_left push vs [] = JS.slice_last 20 vs.
Proof.
  induction vs as [|v vs IH] using rev_ind.
  - reflexivity.
  - rewrite fold_left_app. simpl. rewrite IH.
    rewrite <- push_slice_last. unfold push.
    rewrite slice_last_slice_last by lia. reflexivity.
Qed.

(** C9: each history is a FIFO of capacity 20.  [push] keeps the last 20
    of the old entries followed by the new one: below capacity it only
    appends, at capacity it drops the oldest entry and appends, the length
    never exceeds 20; and 25 values pushed into an empty history leave
    exactly the last 20 of them, in order. *)
Theorem push_fifo_capacity_20 :
  (forall h v, push h v = JS.slice_last 20 (h ++ [v])) /\
  (forall h v, (length h < 20)%nat -> push h v = h ++ [v]) /\
  (forall h v, length h = 20%nat -> push h v = tl h ++ [v]) /\
  (forall h v, (length (push h v) <= 20)%nat) /\
  (forall vs, length vs = 25%nat ->
     length (fold_left push vs []) = 20%nat /\
     fold_left push vs [] = skipn 5 vs).
Proof.
  split; [exact push_slice_last|].
  split.
  { intros h v H. unfold push. rewrite slice_last_short by lia. reflexivity. }
  split.
  { intros h v H. unfold push, JS.slice_last. rewrite H. simpl.
    destruct h; [discriminate|reflexivity]. }
  split.
  { intros h v. rewrite push_length. lia. }
  intros vs H. rewrite fold_push_slice_last.
  split.
  - rewrite slice_last_length. lia.
  - unfold JS.slice_last. rewrite H. reflexivity.
Qed.

Lemma push_fifo_capacity_20_witness :
  let vs := map inject_Z
    [1;2;3;4;5;6;7;8;9;10;11;12;13;14;15;16;17;18;19;20;21;22;23;24;25]%Z in
  length (fold_left push vs []) = 20%nat /\
  fold_left push vs [] = skipn 5 vs.
Proof.
  intro vs. apply (proj2 (proj2 (proj2 (proj2 push_fifo_capacity_20)))).
  reflexivity.
Defined.

(** ** The emotional-state classifier *)

Ltac js_cmp :=
  repeat match goal with
  | |- context [JS.gtb ?a ?b] =>
      let E := fresh "E" in
      destruct (JS.gtb a b) eqn:E;
      [apply gtb_spec in E | apply gtb_false in E]
  | |- context [JS.ltb ?a ?b] =>
      let E := fresh "E" in
      destruct (JS.ltb a b) eqn:E;
      [apply ltb_spec in E | apply ltb_false in E]
  end.

Lemma determineEmotionalState_first_match (n : nat) (s c p r : Q) :
  DecisionList.first_match n s c p r ->
  determineEmotionalState s c p r = DecisionList.label n.
Proof.
  intros [Hn Hlt].
  assert (H1 : (1 < n)%nat -> ~ 7 # 10 < s) by (intro L; exact (Hlt 1%nat L)).
  assert (H2 : (2 < n)%nat -> ~ (7 # 10 < c /\ s < 3 # 10))
    by (intro L; exact (Hlt 2%nat L)).
  assert (H3 : (3 < n)%nat -> ~ (6 # 10 < p /\ r < 4 # 10))
    by (intro L; exact (Hlt 3%nat L)).
  assert (H4 : (4 < n)%nat -> ~ (5 # 10 < s /\ 5 # 10 < p))
    by (intro L; exact (Hlt 4%nat L)).
  clear Hlt.
  destruct n as [|[|[|[|[|[|n]]]]]]; simpl in Hn; try contradiction;
    unfold determineEmotionalState; js_cmp; simpl; try reflexivity;
    try (exfalso; lra);
    try (exfalso; apply H1; [lia | lra]);
    try (exfalso; apply H2; [lia | split; lra]);
    try (exfalso; apply H3; [lia | split; lra]);
    try (exfalso; apply H4; [lia | split; lra]).
Qed.

Lemma determineEmotionalState_no_match (s c p r : Q) :
  DecisionList.no_match s c p r -> determineEmotionalState s c p r = calm.
Proof.
  intro H.
  pose proof (H 1%nat) as H1. pose proof (H 2%nat) as H2.
  pose proof (H 3%nat) as H3. pose proof (H 4%nat) as H4.
  pose proof (H 5%nat) as H5. simpl in *.
  unfold determineEmotionalState; js_cmp; simpl; try reflexivity;
    exfalso; try (apply H1; lra); try (apply H2; split; lra);
    try (apply H3; split; lra); try (apply H4; split; lra);
    try (apply H5; repeat split; lra).
Qed.

(** C2: [determineEmotionalState] is the ordered decision list of the
    specification: the verdict is the label of the first rule that matches
    and [calm] when none does; the comparisons are strict, so a score that
    sits exactly on a threshold does not fire the rule; and whenever
    stress > 0.7 and pitchVariation > 0.5 (rules 1 and 4 both match) the
    verdict is [stressed], not [anxious]. *)
Theorem determineEmotionalState_decision_list :
  (forall n s c p r,
     DecisionList.first_match n s c p r ->
     determineEmotionalState s c p r = DecisionList.label n) /\
  (forall s c p r,
     DecisionList.no_match s c p r ->
     determineEmotionalState s c p r = calm) /\
  (forall s c p r,
     7 # 10 < s -> 5 # 10 < p ->
     DecisionList.rule 1 s c p r /\ DecisionList.rule 4 s c p r /\
     determineEmotionalState s c p r = stressed /\
     determineEmotionalState s c p r <> anxious) /\
  (forall c p r, determineEmotionalState (7 # 10) c p r <> stressed) /\
  (forall s p r, determineEmotionalState s (7 # 10) p r <> confident) /\
  (forall s c r, determineEmotionalState s c (6 # 10) r <> uncertain) /\
  (forall s c p, determineEmotionalState s c p (4 # 10) <> uncertain) /\
  (forall c r, determineEmotionalState (5 # 10) c (1 # 1) r <> anxious) /\
  (forall s c r, determineEmotionalState s c (5 # 10) r <> anxious) /\
  (forall c p r, determineEmotionalState (4 # 10) c p r <> deceptive) /\
  (forall s p r, determineEmotionalState s (4 # 10) p r <> deceptive) /\
  (forall s c r, determineEmotionalState s c (4 # 10) r <> deceptive).
Proof.
  split; [exact determineEmotionalState_first_match|].
  split; [exact determineEmotionalState_no_match|].
  split.
  { intros s c p r Hs Hp.
    assert (E : determineEmotionalState s c p r = stressed).
    { unfold determineEmotionalState.
      destruct (JS.gtb s (7 # 10)) eqn:G; [reflexivity|].
      apply gtb_false in G. lra. }
    simpl. repeat split; try lra; [exact E | rewrite E; discriminate]. }
  repeat split; intros; unfold determineEmotionalState; js_cmp; simpl;
    try discriminate; exfalso; lra.
Qed.

Lemma determineEmotionalState_decision_list_witness :
  determineEmotionalState (8 # 10) (5 # 10) (6 # 10) (5 # 10) = stressed /\
  determineEmotionalState (8 # 10) (5 # 10) (6 # 10) (5 # 10) <> anxious.
Proof.
  pose proof (proj1 (proj2 (proj2 determineEmotionalState_decision_list))
                (8 # 10) (5 # 10) (6 # 10) (5 # 10)) as H.
  assert (H1 : 7 # 10 < 8 # 10) by reflexivity.
  assert (H2 : 5 # 10 < 6 # 10) by reflexivity.
  exact (proj2 (proj2 (H H1 H2))).
Defined.

(** ** Defaults and the silence threshold *)

Section Defaults.

Variable pow_frac : Q -> Q -> Q.
Variable sqrt_irr : Q -> Q.

Local Abbreviation pitchVariationOf := (calculatePitchVariation pow_frac sqrt_irr).
Local Abbreviation volumeConsistencyOf := (calculateVolumeConsistency pow_frac sqrt_irr).
Local Abbreviation analyze := (analyzeAudio pow_frac sqrt_irr).

(** *** Insufficient-data defaults *)

(** C6: with fewer than 5 pitch samples [calculatePitchVariation] is 0,
    with fewer than 10 voice samples [calculateSpeechRate] is 0.5, with
    fewer than 5 volume samples [calculateVolumeConsistency] is 1; the
    three defaults are pairwise different, and the functions are total. *)
Theorem insufficient_data_defaults (pitches voices volumes : list Q) :
  ((length pitches < 5)%nat -> pitchVariationOf pitches = 0) /\
  ((length voices < 10)%nat -> calculateSpeechRate voices = 1 # 2) /\
  ((length volumes < 5)%nat -> volumeConsistencyOf volumes = 1) /\
  ~ 0 == 1 # 2 /\ ~ 1 # 2 == 1 /\ ~ 0 == 1.
Proof.
  repeat split; try (intro H; discriminate H).
  - intro H. unfold calculatePitchVariation.
    apply Nat.ltb_lt in H. rewrite H. reflexivity.
  - intro H. unfold calculateSpeechRate.
    apply Nat.ltb_lt in H. rewrite H. reflexivity.
  - intro H. unfold calculateVolumeConsistency.
    apply Nat.ltb_lt in H. rewrite H. reflexivity.
Qed.

(** *** The silence threshold *)

(** C3: a frame whose audio level is at most 5 emits no record and leaves
    the three histories of the state as they were. *)
Theorem silent_frame_skipped (rendered store : Histories) (sid : string) (f : Frame) :
  audioLevelOf f <= 5 ->
  analyze rendered store sid f = (None, store).
Proof.
  intro H. unfold analyzeAudio.
  apply gtb_false in H. rewrite H. reflexivity.
Qed.

End Defaults.

Lemma insufficient_data_defaults_witness :
  calculatePitchVariation pow_floor sqrt_floor [100; 120; 110; 90] = 0 /\
  calculateSpeechRate [20; 30; 40; 20; 30; 40; 20; 30; 40] = 1 # 2 /\
  calculateVolumeConsistency pow_floor sqrt_floor [20; 30; 40; 20] = 1.
Proof.
  pose proof (insufficient_data_defaults pow_floor sqrt_floor
                [100; 120; 110; 90]
                [20; 30; 40; 20; 30; 40; 20; 30; 40]
                [20; 30; 40; 20]) as (H1 & H2 & H3 & _).
  split; [apply H1; simpl; lia|].
  split; [apply H2; simpl; lia|apply H3; simpl; lia].
Defined.

Lemma silent_frame_skipped_witness :
  audioLevelOf silent_frame <= 5 /\
  analyzeAudio pow_floor sqrt_floor initialHistories initialHistories
    "session"%string silent_frame = (None, initialHistories).
Proof.
  assert (H : audioLevelOf silent_frame <= 5).
  { apply Qle_bool_iff. vm_compute. reflexivity. }
  split; [exact H|].
  apply (silent_frame_skipped pow_floor sqrt_floor); exact H.
Defined.

(** ** Bounds *)

Lemma Math_pow_2 (pow_frac : Q -> Q -> Q) (d : Q) :
  Math_pow pow_frac d 2 = d * d.
Proof. reflexivity. Qed.

Lemma Math_sqrt_nonneg (sqrt_irr : Q -> Q) :
  (forall x, 0 <= x -> 0 <= sqrt_irr x) ->
  forall x, 0 <= x -> 0 <= Math_sqrt sqrt_irr x.
Proof.
  intros Hirr x Hx. unfold Math_sqrt.
  destruct (_ && _)%bool.
  - unfold Qle. simpl. rewrite Z.mul_1_r. apply Z.sqrt_nonneg.
  - apply Hirr, Hx.
Qed.

Lemma variance_of_nonneg (pow_frac : Q -> Q -> Q) (l : list Q) :
  0 <= variance_of pow_frac l.
Proof.
  unfold variance_of, JS.reduce.
  apply Qdiv_nonneg; [|apply len_nonneg].
  rewrite (fold_add_sumQ (fun val => Math_pow pow_frac (val - mean_of l) 2)).
  rewrite Qplus_0_l. apply sumQ_nonneg.
  apply Forall_forall. intros x Hx. apply in_map_iff in Hx.
  destruct Hx as (v & <- & _). rewrite Math_pow_2.
  generalize (v - mean_of l). intro d.
  destruct (Qlt_le_dec d 0) as [Hd|Hd]; nra.
Qed.

Lemma clamp_unit_interval (x : Q) :
  unit_interval (JS.Math_min (JS.Math_max x 0) 1).
Proof.
  unfold unit_interval, JS.Math_min, JS.Math_max. split.
  - apply Q.min_glb; [apply Q.le_max_r | lra].
  - apply Q.le_min_r.
Qed.

Lemma min_1_unit_interval (x : Q) :
  0 <= x -> unit_interval (JS.Math_min x 1).
Proof.
  intro H. unfold unit_interval, JS.Math_min. split.
  - apply Q.min_glb; lra.
  - apply Q.le_min_r.
Qed.

Section Bounds.

Variable pow_frac : Q -> Q -> Q.
Variable sqrt_irr : Q -> Q.
Hypothesis sqrt_irr_nonneg : forall x, 0 <= x -> 0 <= sqrt_irr x.

Lemma calculatePitchVariation_bounds (h : list Q) :
  unit_interval (calculatePitchVariation pow_frac sqrt_irr h).
Proof.
  unfold calculatePitchVariation.
  destruct (length h <? 5)%nat; [split; lra|].
  apply min_1_unit_interval, Qdiv_nonneg; [|lra].
  apply Math_sqrt_nonneg; [exact sqrt_irr_nonneg|apply variance_of_nonneg].
Qed.

Lemma calculateVolumeConsistency_bounds (h : list Q) :
  unit_interval (calculateVolumeConsistency pow_frac sqrt_irr h).
Proof.
  unfold calculateVolumeConsistency.
  destruct (length h <? 5)%nat; [split; lra|].
  assert (Hs : 0 <= Math_sqrt sqrt_irr (variance_of pow_frac h) / 50).
  { apply Qdiv_nonneg; [|lra].
    apply Math_sqrt_nonneg; [exact sqrt_irr_nonneg|apply variance_of_nonneg]. }
  unfold unit_interval, JS.Math_max. split.
  - apply Q.le_max_r.
  - apply Q.max_lub; lra.
Qed.

Lemma calculateSpeechRate_bounds (h : list Q) :
  unit_interval (calculateSpeechRate h).
Proof.
  unfold calculateSpeechRate.
  destruct (length h <? 10)%nat; [split; lra|].
  apply min_1_unit_interval, Qdiv_nonneg; [apply num_nonneg|apply len_nonneg].
Qed.

(** What a frame above the silence threshold emits. *)
Lemma analyzeAudio_emits (rendered store : Histories) (sid : string) (f : Frame)
    (a : VoiceAnalysis) :
  fst (analyzeAudio pow_frac sqrt_irr rendered store sid f) = Some a ->
  5 < audioLevelOf f /\
  a = fst (performVoiceStressAnalysis pow_frac sqrt_irr rendered sid
             (dataArray f) (frequencyData f) (audioLevelOf f)).
Proof.
  unfold analyzeAudio.
  destruct (JS.gtb (audioLevelOf f) 5) eqn:G; simpl; [|discriminate].
  intro H. injection H as <-. apply gtb_spec in G. split; [exact G|reflexivity].
Qed.

(** C1: whatever the frame and the histories, each of the five scores of
    an emitted record lies in [0,1] (given a square root that is not
    negative on numbers that are not negative). *)
Theorem scores_in_unit_interval (rendered store : Histories) (sid : string)
    (f : Frame) (a : VoiceAnalysis) :
  fst (analyzeAudio pow_frac sqrt_irr rendered store sid f) = Some a ->
  unit_interval (stressLevel a) /\
  unit_interval (confidenceLevel a) /\
  unit_interval (pitchVariation a) /\
  unit_interval (speechRate a) /\
  unit_interval (volumeConsistency a).
Proof.
  intro H. apply analyzeAudio_emits in H. destruct H as [_ ->]. simpl.
  split; [apply clamp_unit_interval|].
  split; [apply clamp_unit_interval|].
  split; [apply calculatePitchVariation_bounds|].
  split; [apply calculateSpeechRate_bounds|].
  apply calculateVolumeConsistency_bounds.
Qed.

End Bounds.

Lemma sqrt_floor_nonneg (x : Q) : 0 <= x -> 0 <= sqrt_floor x.
Proof.
  intros _. unfold sqrt_floor, Qle. simpl. rewrite Z.mul_1_r. apply Z.sqrt_nonneg.
Qed.

Lemma analyzeAudio_passes (pow_frac : Q -> Q -> Q) (sqrt_irr : Q -> Q)
    (rendered store : Histories) (sid : string) (f : Frame) :
  5 < audioLevelOf f ->
  fst (analyzeAudio pow_frac sqrt_irr rendered store sid f) =
  Some (fst (performVoiceStressAnalysis pow_frac sqrt_irr rendered sid
               (dataArray f) (frequencyData f) (audioLevelOf f))).
Proof.
  intro H. unfold analyzeAudio. apply gtb_spec in H. rewrite H. reflexivity.
Qed.

Lemma voiced_frame_level : audioLevelOf voiced_frame = 20.
Proof. vm_compute. reflexivity. Qed.

Lemma scores_in_unit_interval_witness :
  let a := fst (performVoiceStressAnalysis pow_floor sqrt_floor sample_histories
                  "session"%string (dataArray voiced_frame)
                  (frequencyData voiced_frame) (audioLevelOf voiced_frame)) in
  unit_interval (stressLevel a) /\
  unit_interval (confidenceLevel a) /\
  unit_interval (pitchVariation a) /\
  unit_interval (speechRate a) /\
  unit_interval (volumeConsistency a).
Proof.
  intro a.
  apply (scores_in_unit_interval pow_floor sqrt_floor sqrt_floor_nonneg
           sample_histories sample_histories "session"%string voiced_frame).
  apply analyzeAudio_passes. rewrite voiced_frame_level. reflexivity.
Defined.

(** ** Levels stored in the histories *)

Lemma Forall_skipn {A} (P : A -> Prop) (n : nat) (l : list A) :
  Forall P l -> Forall P (skipn n l).
Proof.
  revert l. induction n as [|n IH]; intros l H; [exact H|].
  destruct H as [|x l Hx Hl]; simpl; [constructor|apply IH, Hl].
Qed.

Lemma push_Forall (P : Q -> Prop) (h : list Q) (v : Q) :
  Forall P h -> P v -> Forall P (push h v).
Proof.
  intros Hh Hv. unfold push, JS.slice_last.
  apply Forall_app. split; [apply Forall_skipn, Hh|].
  constructor; [exact Hv|constructor].
Qed.

Lemma byte_sum_le (data : list byte) :
  JS.reduce (fun sum value => sum + inject_Z (Z.of_N (Byte.to_N value))) 0 data
  <= JS.len data * 255.
Proof.
  unfold JS.reduce.
  rewrite (fold_add_sumQ (fun value => inject_Z (Z.of_N (Byte.to_N value)))).
  rewrite Qplus_0_l.
  assert (L : JS.len data == JS.len (map (fun value => inject_Z (Z.of_N (Byte.to_N value))) data)).
  { unfold JS.len. rewrite length_map. reflexivity. }
  rewrite L. apply sumQ_le_const.
  apply Forall_forall. intros x Hx. apply in_map_iff in Hx.
  destruct Hx as (b & <- & _).
  change 255 with (inject_Z 255). rewrite <- Zle_Qle.
  pose proof (Byte.to_N_bounded b). lia.
Qed.

Lemma audioLevelOf_le_100 (f : Frame) : audioLevelOf f <= 100.
Proof.
  unfold audioLevelOf, JS.Math_round.
  change 100 with (inject_Z 100) at 2. rewrite <- Zle_Qle.
  apply (Z.le_trans _ (Qfloor (100 + (1 # 2)))); [|discriminate].
  apply Qfloor_resp_le.
  set (sum := JS.reduce _ 0 (dataArray f)).
  assert (Hsum : sum <= JS.len (dataArray f) * 255) by apply byte_sum_le.
  assert (Havg : sum / JS.len (dataArray f) <= 255).
  { pose proof (len_nonneg (dataArray f)) as Hlen.
    destruct (Qlt_le_dec 0 (JS.len (dataArray f))) as [Hpos|Hz].
    - apply Qle_shift_div_r; [exact Hpos|lra].
    - assert (E : JS.len (dataArray f) == 0) by lra.
      rewrite E. unfold Qdiv. change (/ 0) with 0. lra. }
  set (average := sum / JS.len (dataArray f)) in *.
  assert (average / 255 <= 1) by (apply Qle_shift_div_r; lra).
  lra.
Qed.

Section Levels.

Variable pow_frac : Q -> Q -> Q.
Variable sqrt_irr : Q -> Q.

(** The state after a frame does not depend on the histories the closure
    has bound. *)
Lemma analyzeAudio_store (rendered store : Histories) (sid : string) (f : Frame) :
  snd (analyzeAudio pow_frac sqrt_irr rendered store sid f) =
  if JS.gtb (audioLevelOf f) 5
  then updateHistories (detectFundamentalFrequency (frequencyData f))
         (audioLevelOf f) store
  else store.
Proof.
  unfold analyzeAudio. destruct (JS.gtb (audioLevelOf f) 5); reflexivity.
Qed.

Lemma analyzeAudio_levels (rendered store : Histories) (sid : string) (f : Frame) :
  levels_in_range store ->
  levels_in_range (snd (analyzeAudio pow_frac sqrt_irr rendered store sid f)).
Proof.
  intros [Hvol Hvoice]. rewrite analyzeAudio_store.
  destruct (JS.gtb (audioLevelOf f) 5) eqn:G; [|split; assumption].
  apply gtb_spec in G.
  assert (Hv : in_level_range (audioLevelOf f))
    by (split; [exact G|apply audioLevelOf_le_100]).
  split; simpl; apply push_Forall; assumption.
Qed.

Lemma run_levels (sid : string) (frames : list Frame) (h : Histories) :
  levels_in_range h -> levels_in_range (run pow_frac sqrt_irr sid h frames).
Proof.
  revert h. induction frames as [|f frames IH]; intros h Hh; [exact Hh|].
  simpl. apply IH. unfold tick. apply analyzeAudio_levels, Hh.
Qed.

(** C10: in every state reached from the empty histories by a sequence
    of frames, every entry of the volume and voice histories is greater
    than 5 and at most 100; a record emitted by a closure over such a
    state takes its speechRate from that voice history. *)
Theorem stored_levels_above_threshold (sid : string) (frames : list Frame) :
  let h := run pow_frac sqrt_irr sid initialHistories frames in
  Forall in_level_range (volumeHistory h) /\
  Forall in_level_range (voiceHistory h) /\
  forall store f a,
    fst (analyzeAudio pow_frac sqrt_irr h store sid f) = Some a ->
    speechRate a = calculateSpeechRate (voiceHistory h) /\
    Forall (fun v => 5 < v /\ v <= 100) (voiceHistory h).
Proof.
  intro h.
  assert (H : levels_in_range h).
  { apply run_levels. split; constructor. }
  destruct H as [Hvol Hvoice].
  split; [exact Hvol|]. split; [exact Hvoice|].
  intros store f a Ha. split; [|exact Hvoice].
  apply analyzeAudio_emits in Ha. destruct Ha as [_ ->]. reflexivity.
Qed.

End Levels.

Lemma stored_levels_above_threshold_witness :
  let h := run pow_floor sqrt_floor "session"%string initialHistories
             [voiced_frame; silent_frame; voiced_frame] in
  let a := fst (performVoiceStressAnalysis pow_floor sqrt_floor h
                  "session"%string (dataArray voiced_frame)
                  (frequencyData voiced_frame) (audioLevelOf voiced_frame)) in
  speechRate a = calculateSpeechRate (voiceHistory h) /\
  Forall (fun v => 5 < v /\ v <= 100) (voiceHistory h).
Proof.
  intros h a.
  apply (proj2 (proj2 (stored_levels_above_threshold pow_floor sqrt_floor
           "session"%string [voiced_frame; silent_frame; voiced_frame]))
         h voiced_frame a).
  apply analyzeAudio_passes. rewrite voiced_frame_level. reflexivity.
Defined.

(** ** Jitter and shimmer *)

Lemma slice_last_last_samples (n : nat) (l : list Q) :
  JS.slice_last n l = Instability.last_samples n l.
Proof.
  unfold JS.slice_last, Instability.last_samples.
  rewrite firstn_rev, rev_involutive. reflexivity.
Qed.

Lemma consecutive_abs_diffs_nonneg (l : list Q) :
  0 <= Instability.consecutive_abs_diffs l.
Proof.
  induction l as [|a l IH]; [apply Qle_refl|].
  destruct l as [|b t]; [apply Qle_refl|].
  change (0 <= Qabs (b - a) + Instability.consecutive_abs_diffs (b :: t)).
  pose proof (Qabs_nonneg (b - a)). lra.
Qed.

Lemma diff_terms_shift (x y : Q) (t : list Q) (n : nat) :
  map (fun i => JS.Math_abs (JS.get (x :: y :: t) i - JS.get (x :: y :: t) (i - 1)))
      (seq 2 n) =
  map (fun i => JS.Math_abs (JS.get (y :: t) i - JS.get (y :: t) (i - 1)))
      (seq 1 n).
Proof.
  rewrite <- seq_shift, map_map. apply map_ext_in.
  intros i Hi. apply in_seq in Hi.
  unfold JS.get. simpl. rewrite Nat.sub_0_r.
  destruct i as [|i]; [lia|]. simpl. rewrite Nat.sub_0_r. reflexivity.
Qed.

Lemma diff_terms_sum (x : Q) (t : list Q) :
  sumQ (map (fun i => JS.Math_abs (JS.get (x :: t) i - JS.get (x :: t) (i - 1)))
            (seq 1 (length t)))
  == Instability.consecutive_abs_diffs (x :: t).
Proof.
  revert x. induction t as [|y t IH]; intro x.
  - reflexivity.
  - cbn [length seq map sumQ].
    rewrite diff_terms_shift, IH.
    cbn [Instability.consecutive_abs_diffs].
    unfold JS.get, JS.Math_abs. simpl. reflexivity.
Qed.

Lemma diff_sum_consecutive (l : list Q) :
  diff_sum l == Instability.consecutive_abs_diffs l.
Proof.
  unfold diff_sum, JS.for_range.
  rewrite (fold_add_sumQ
             (fun i => JS.Math_abs (JS.get l i - JS.get l (i - 1)))).
  rewrite Qplus_0_l.
  destruct l as [|x t]; [reflexivity|].
  simpl length. rewrite Nat.sub_succ, Nat.sub_0_r. apply diff_terms_sum.
Qed.

Lemma min_1_clamp01 (x : Q) : 0 <= x -> JS.Math_min x 1 == clamp01 x.
Proof.
  intro H. unfold JS.Math_min, clamp01.
  destruct (Qlt_le_dec x 0); [lra|].
  destruct (Qlt_le_dec 1 x).
  - apply Q.min_r. lra.
  - apply Q.min_l. lra.
Qed.

Lemma clamp01_compat (x y : Q) :
  x == y -> clamp01 x == clamp01 y.
Proof.
  intro E. unfold clamp01.
  destruct (Qlt_le_dec x 0), (Qlt_le_dec y 0); try lra;
    destruct (Qlt_le_dec 1 x), (Qlt_le_dec 1 y); lra.
Qed.

Lemma mean_step_formula (divisor : Q) (h : list Q) (cur : Q) :
  0 < divisor ->
  JS.Math_min
    (diff_sum (JS.slice_last 5 h ++ [cur])
       / (JS.len (JS.slice_last 5 h ++ [cur]) - 1) / divisor) 1
  == Instability.instability divisor h cur.
Proof.
  intro Hd. unfold Instability.instability.
  rewrite <- slice_last_last_samples.
  set (points := JS.slice_last 5 h ++ [cur]).
  assert (Hc : 0 <= JS.len points - 1).
  { unfold points, JS.len. rewrite length_app. simpl length.
    rewrite Nat2Z.inj_add, inject_Z_plus. change (inject_Z (Z.of_nat 1)) with 1.
    pose proof (len_nonneg (JS.slice_last 5 h)) as L. unfold JS.len in L. lra. }
  rewrite min_1_clamp01.
  - apply clamp01_compat. rewrite diff_sum_consecutive. reflexivity.
  - apply Qdiv_nonneg; [|lra]. apply Qdiv_nonneg; [|exact Hc].
    rewrite diff_sum_consecutive. apply consecutive_abs_diffs_nonneg.
Qed.

(** C5: with fewer than 3 history samples jitter and shimmer are exactly 0;
    otherwise each is the sum of the absolute consecutive differences over
    the last 5 history samples followed by the current value, divided by
    (count - 1) and then by 100 (jitter) or 50 (shimmer), clamped to
    [0,1]. *)
Theorem jitter_shimmer_formula (history : list Q) (current : Q) :
  ((length history < 3)%nat ->
     calculateJitter history current = 0 /\
     calculateShimmer history current = 0) /\
  ((3 <= length history)%nat ->
     calculateJitter history current
       == Instability.instability 100 history current /\
     calculateShimmer history current
       == Instability.instability 50 history current).
Proof.
  unfold calculateJitter, calculateShimmer. split; intro H.
  - apply Nat.ltb_lt in H. rewrite H. split; reflexivity.
  - apply Nat.ltb_ge in H. rewrite H.
    split; apply mean_step_formula; reflexivity.
Qed.

Lemma jitter_shimmer_formula_witness :
  (calculateJitter [100; 150] 200 = 0 /\ calculateShimmer [100; 150] 200 = 0) /\
  (calculateJitter [100; 150; 100; 150; 100; 150; 100] 150
     == Instability.instability 100 [100; 150; 100; 150; 100; 150; 100] 150 /\
   calculateShimmer [100; 150; 100; 150; 100; 150; 100] 150
     == Instability.instability 50 [100; 150; 100; 150; 100; 150; 100] 150).
Proof.
  split.
  - apply (proj1 (jitter_shimmer_formula [100; 150] 200)). simpl. lia.
  - apply (proj2 (jitter_shimmer_formula [100; 150; 100; 150; 100; 150; 100] 150)).
    simpl. lia.
Defined.

Example calculateJitter_alternating :
  calculateJitter [100; 150; 100; 150; 100; 150; 100] 150 == 1 # 2 /\
  calculateShimmer [100; 150; 100; 150; 100; 150; 100] 150 == 1.
Proof. split; vm_compute; reflexivity. Qed.

(** ** Fundamental frequency *)

Lemma dB_gtb_spec (a b : dB) : JS.dB_gtb a b = true <-> dB_lt b a.
Proof.
  destruct a as [|x], b as [|y]; simpl;
    try (split; [discriminate|intros []]);
    try (split; [intros _; exact I|reflexivity]).
  apply gtb_spec.
Qed.

Lemma dB_gtb_false (a b : dB) : JS.dB_gtb a b = false <-> dB_le a b.
Proof.
  destruct a as [|x], b as [|y]; simpl;
    try (split; [discriminate|intros []]);
    try (split; [intros _; exact I|reflexivity]).
  apply gtb_false.
Qed.

Lemma dB_le_refl (a : dB) : dB_le a a.
Proof. destruct a; simpl; [exact I|apply Qle_refl]. Qed.

Lemma dB_lt_le (a b : dB) : dB_lt a b -> dB_le a b.
Proof. destruct a, b; simpl; try tauto. apply Qlt_le_weak. Qed.

Lemma dB_lt_trans (a b c : dB) : dB_lt a b -> dB_lt b c -> dB_lt a c.
Proof. destruct a, b, c; simpl; try tauto. apply Qlt_trans. Qed.

Lemma dB_le_lt_trans (a b c : dB) : dB_le a b -> dB_lt b c -> dB_lt a c.
Proof. destruct a, b, c; simpl; try tauto. apply Qle_lt_trans. Qed.

Lemma dB_lt_not_le (a b : dB) : dB_lt a b -> dB_le b a -> False.
Proof. destruct a, b; simpl; try tauto. apply Qlt_not_le. Qed.

Lemma dB_le_NegInfinity (a : dB) : dB_le a NegInfinity -> a = NegInfinity.
Proof. destruct a; simpl; [reflexivity|intros []]. Qed.

Lemma dB_lt_NegInfinity (a : dB) : dB_lt NegInfinity a -> a <> NegInfinity.
Proof. destruct a; simpl; [intros []|discriminate]. Qed.

Lemma first_peak_unique (range : nat -> Prop) (fd : list dB) (i j : nat) :
  first_peak range fd i -> first_peak range fd j -> i = j.
Proof.
  intros [Ri Hi] [Rj Hj].
  destruct (Hi j Rj) as [Hji Hji'], (Hj i Ri) as [Hij Hij'].
  destruct (Nat.lt_trichotomy i j) as [L|[E|L]]; [|exact E|].
  - destruct (dB_lt_not_le _ _ (Hij' L) Hji).
  - destruct (dB_lt_not_le _ _ (Hji' L) Hij).
Qed.

(** The loop over the bins [lo, lo + k), entered with [maxIndex = m0] and
    [maxValue = mv]: either no bin exceeds [mv] and the state is unchanged,
    or the loop ends on the first peak of the bins it visited. *)
Lemma detect_loop (fd : list dB) (k lo m0 : nat) (mv : dB) :
  let r := fold_left (detect_step fd) (seq lo k) (m0, mv) in
  (r = (m0, mv) /\
   forall j, (lo <= j < lo + k)%nat -> dB_le (JS.bin fd j) mv) \/
  ((lo <= fst r < lo + k)%nat /\
   snd r = JS.bin fd (fst r) /\
   dB_lt mv (JS.bin fd (fst r)) /\
   forall j, (lo <= j < lo + k)%nat ->
     dB_le (JS.bin fd j) (JS.bin fd (fst r)) /\
     ((j < fst r)%nat -> dB_lt (JS.bin fd j) (JS.bin fd (fst r)))).
Proof.
  cbv zeta. revert lo m0 mv. induction k as [|k IH]; intros lo m0 mv.
  - left. split; [reflexivity|]. intros j Hj. lia.
  - cbn [seq fold_left].
    destruct (JS.dB_gtb (JS.bin fd lo) mv) eqn:G.
    + assert (St : detect_step fd (m0, mv) lo = (lo, JS.bin fd lo))
        by (unfold detect_step; rewrite G; reflexivity).
      rewrite St. apply dB_gtb_spec in G. right.
      destruct (IH (S lo) lo (JS.bin fd lo)) as [[E Hle]|(Hm & Hv & Hlt & Hmax)].
      * rewrite E. cbn [fst snd].
        split; [lia|]. split; [reflexivity|]. split; [exact G|].
        intros j Hj. destruct (Nat.eq_dec j lo) as [->|Hne].
        -- split; [apply dB_le_refl|lia].
        -- split; [apply Hle; lia|lia].
      * split; [lia|]. split; [exact Hv|].
        split; [exact (dB_lt_trans _ _ _ G Hlt)|].
        intros j Hj. destruct (Nat.eq_dec j lo) as [->|Hne].
        -- split; [apply dB_lt_le, Hlt|intros _; exact Hlt].
        -- apply Hmax. lia.
    + assert (St : detect_step fd (m0, mv) lo = (m0, mv))
        by (unfold detect_step; rewrite G; reflexivity).
      rewrite St. apply dB_gtb_false in G.
      destruct (IH (S lo) m0 mv) as [[E Hle]|(Hm & Hv & Hlt & Hmax)].
      * left. split; [exact E|].
        intros j Hj. destruct (Nat.eq_dec j lo) as [->|Hne];
          [exact G|apply Hle; lia].
      * right. split; [lia|]. split; [exact Hv|]. split; [exact Hlt|].
        intros j Hj. destruct (Nat.eq_dec j lo) as [->|Hne].
        -- pose proof (dB_le_lt_trans _ _ _ G Hlt) as L.
           split; [apply dB_lt_le, L|intros _; exact L].
        -- apply Hmax. lia.
Qed.

(** The bin the search ends on: bin 0 when every visited bin holds
    [-Infinity] (in particular when no bin is visited), and otherwise the
    first peak of the visited bins, which holds a finite level. *)
Lemma detect_maxIndex_cases (fd : list dB) :
  (detect_maxIndex fd = 0%nat /\
   forall i, searched fd i -> JS.bin fd i = NegInfinity) \/
  (first_peak (searched fd) fd (detect_maxIndex fd) /\
   JS.bin fd (detect_maxIndex fd) <> NegInfinity).
Proof.
  unfold detect_maxIndex, JS.for_range, searched.
  set (lo := startIndex fd).
  set (hi := Nat.min (endIndex fd) (length fd)).
  pose proof (detect_loop fd (hi - lo) lo 0 NegInfinity) as D. cbv zeta in D.
  destruct D as [[E Hle]|(Hm & Hv & Hlt & Hmax)].
  - left. rewrite E. split; [reflexivity|].
    intros i Hi. apply dB_le_NegInfinity, Hle. lia.
  - right. split; [split|].
    + lia.
    + intros j Hj. apply Hmax. lia.
    + apply dB_lt_NegInfinity, Hlt.
Qed.

Lemma spectrum_peak_length (peak : nat) :
  (peak <= 1023)%nat -> length (spectrum_peak peak) = 1024%nat.
Proof.
  intro H. unfold spectrum_peak.
  rewrite !length_app, !repeat_length. cbn [length]. lia.
Qed.

Lemma spectrum_peak_get (peak j : nat) :
  (peak <= 1023)%nat ->
  JS.bin (spectrum_peak peak) j =
  if (j =? peak)%nat then Finite 0
  else if (j <? 1024)%nat then Finite (-100 # 1) else NegInfinity.
Proof.
  intro H. unfold JS.bin, spectrum_peak.
  destruct (Nat.lt_trichotomy j peak) as [L|[->|L]].
  - rewrite app_nth1 by (rewrite repeat_length; exact L).
    rewrite nth_repeat_lt by exact L.
    replace (j =? peak)%nat with false by (symmetry; apply Nat.eqb_neq; lia).
    replace (j <? 1024)%nat with true by (symmetry; apply Nat.ltb_lt; lia).
    reflexivity.
  - rewrite app_nth2 by (rewrite repeat_length; lia).
    rewrite repeat_length, Nat.sub_diag, Nat.eqb_refl. reflexivity.
  - rewrite app_nth2 by (rewrite repeat_length; lia).
    rewrite repeat_length.
    replace (j =? peak)%nat with false by (symmetry; apply Nat.eqb_neq; lia).
    destruct (j - peak)%nat as [|d] eqn:D; [lia|]. cbn [app nth].
    destruct (j <? 1024)%nat eqn:J.
    + apply Nat.ltb_lt in J. apply nth_repeat_lt. lia.
    + apply Nat.ltb_ge in J. apply nth_overflow. rewrite repeat_length. lia.
Qed.

(** The peak of [spectrum_peak peak] is the first peak of every range of
    bins that holds it. *)
Lemma spectrum_peak_first_peak (range : nat -> Prop) (peak : nat) :
  (peak <= 1023)%nat -> range peak ->
  first_peak range (spectrum_peak peak) peak.
Proof.
  intros H R. split; [exact R|].
  intros j _. rewrite !spectrum_peak_get by exact H. rewrite Nat.eqb_refl.
  destruct (j =? peak)%nat eqn:E.
  - apply Nat.eqb_eq in E. split; [apply Qle_refl|lia].
  - destruct (j <? 1024)%nat eqn:J.
    + split; [discriminate|intros _; reflexivity].
    + split; [exact I|].
      apply Nat.eqb_neq in E. apply Nat.ltb_ge in J. lia.
Qed.

(** C7: the loop of [detectFundamentalFrequency] runs over the bins
    floor(80 n / 22050) <= i < min(floor(300 n / 22050), n), not over the
    bins whose mapped frequency falls in [80 Hz, 300 Hz].  On a spectrum of
    1024 bins whose only peak is at bin 13 (279.9 Hz, inside the band) it
    visits bins 3 to 12 and answers with bin 3 (64.6 Hz, below the band),
    which is not the frequency of the peak of the band. *)
Theorem detectFundamentalFrequency_not_band_peak :
  spectrum_peak 13 <> [] /\
  detectFundamentalFrequency (spectrum_peak 13) == freq 1024 3 /\
  ~ Band.fundamental (spectrum_peak 13)
      (detectFundamentalFrequency (spectrum_peak 13)).
Proof.
  split; [discriminate|].
  split; [vm_compute; reflexivity|].
  intros [H _].
  assert (P : first_peak (Band.in_band (spectrum_peak 13)) (spectrum_peak 13) 13).
  { apply spectrum_peak_first_peak; [lia|].
    unfold Band.in_band. rewrite spectrum_peak_length by lia.
    split; [lia|]. split; apply Qle_bool_iff; vm_compute; reflexivity. }
  specialize (H 13%nat P). vm_compute in H. discriminate H.
Qed.

(** ** Stress level *)

Lemma clamp_min_max (x : Q) : JS.Math_min (JS.Math_max x 0) 1 == clamp01 x.
Proof.
  unfold JS.Math_min, JS.Math_max, clamp01.
  destruct (Q.max_spec x 0) as [[H E]|[H E]];
    destruct (Q.min_spec (Qmax x 0) 1) as [[H' E']|[H' E']];
    destruct (Qlt_le_dec x 0); try destruct (Qlt_le_dec 1 x); lra.
Qed.

Section Stress.

Variable pow_frac : Q -> Q -> Q.
Variable sqrt_irr : Q -> Q.

Lemma centroid_loop (fd : list dB) (l : list nat) (w m : Q) :
  let r := fold_left (centroid_step pow_frac fd) l (w, m) in
  fst r == w + sumQ (map (fun i => JS.num i * Centroid.power pow_frac (JS.bin fd i)) l) /\
  snd r == m + sumQ (map (fun i => Centroid.power pow_frac (JS.bin fd i)) l).
Proof.
  revert w m. induction l as [|i l IH]; intros w m; cbn [fold_left map sumQ].
  - cbn [fst snd]. split; ring.
  - change (centroid_step pow_frac fd (w, m) i)
      with (w + JS.num i * Centroid.power pow_frac (JS.bin fd i),
            m + Centroid.power pow_frac (JS.bin fd i)).
    destruct (IH (w + JS.num i * Centroid.power pow_frac (JS.bin fd i))
                 (m + Centroid.power pow_frac (JS.bin fd i))) as [Hw Hm].
    rewrite Hw, Hm. split; ring.
Qed.

Lemma calculateSpectralCentroid_mean_bin_index (fd : list dB) :
  calculateSpectralCentroid pow_frac fd == Centroid.mean_bin_index pow_frac fd.
Proof.
  unfold calculateSpectralCentroid, Centroid.mean_bin_index, JS.for_range.
  rewrite Nat.sub_0_r.
  destruct (centroid_loop fd (seq 0 (length fd)) 0 0) as [Hw Hm].
  destruct (fold_left _ _ _) as [weightedSum magnitudeSum].
  simpl in Hw, Hm. rewrite Qplus_0_l in Hw, Hm.
  fold (Centroid.sum_bins (length fd)
          (fun i => JS.num i * Centroid.power pow_frac (JS.bin fd i))) in Hw.
  fold (Centroid.sum_bins (length fd)
          (fun i => Centroid.power pow_frac (JS.bin fd i))) in Hm.
  fold (Centroid.weighted_power pow_frac fd) in Hw.
  fold (Centroid.total_power pow_frac fd) in Hm.
  destruct (JS.gtb magnitudeSum 0) eqn:G;
    [apply gtb_spec in G | apply gtb_false in G];
    destruct (Qlt_le_dec 0 (Centroid.total_power pow_frac fd)); try lra.
  rewrite Hw, Hm. reflexivity.
Qed.

(** C8: the stress level is clamp01 of 0.30 highFreqEnergy + 0.25 jitter
    + 0.25 shimmer + (0.20 when the spectral centroid exceeds 0.6); in an
    emitted record the centroid that is compared with 0.6 is the
    power-weighted mean bin index itself, on the scale of bin indices
    (it exceeds 1 already on a spectrum of three bins). *)
Theorem stressLevel_formula :
  (forall highFreqEnergy jitter shimmer spectralCentroid,
     calculateStressLevel highFreqEnergy jitter shimmer spectralCentroid ==
     clamp01 ((3 # 10) * highFreqEnergy + (25 # 100) * jitter + (25 # 100) * shimmer
              + (if Qlt_le_dec (6 # 10) spectralCentroid then 2 # 10 else 0))) /\
  (forall rendered store sid f a,
     fst (analyzeAudio pow_frac sqrt_irr rendered store sid f) = Some a ->
     let fd := frequencyData f in
     let highFreqEnergy := calculateHighFrequencyEnergy pow_frac fd in
     let jitter :=
       calculateJitter (pitchHistory rendered) (detectFundamentalFrequency fd) in
     let shimmer := calculateShimmer (volumeHistory rendered) (audioLevelOf f) in
     stressLevel a ==
     clamp01 ((3 # 10) * highFreqEnergy + (25 # 100) * jitter + (25 # 100) * shimmer
              + (if Qlt_le_dec (6 # 10) (Centroid.mean_bin_index pow_frac fd)
                 then 2 # 10 else 0))) /\
  1 < Centroid.mean_bin_index pow_frac
        [Finite (-100 # 1); Finite (-100 # 1); Finite 0].
Proof.
  assert (F : forall h j s c c', c == c' ->
            calculateStressLevel h j s c ==
            clamp01 ((3 # 10) * h + (25 # 100) * j + (25 # 100) * s
                     + (if Qlt_le_dec (6 # 10) c' then 2 # 10 else 0))).
  { intros h j s c c' E. unfold calculateStressLevel.
    rewrite clamp_min_max. apply clamp01_compat.
    destruct (JS.gtb c (6 # 10)) eqn:G;
      [apply gtb_spec in G | apply gtb_false in G];
      destruct (Qlt_le_dec (6 # 10) c'); try lra; ring. }
  split; [intros; apply F; reflexivity|].
  split.
  - intros rendered store sid f a Ha. apply analyzeAudio_emits in Ha.
    destruct Ha as [_ ->]. simpl.
    apply F, calculateSpectralCentroid_mean_bin_index.
  - vm_compute. reflexivity.
Qed.

End Stress.

Lemma stressLevel_formula_witness :
  let a := fst (performVoiceStressAnalysis pow_floor sqrt_floor sample_histories
                  "session"%string (dataArray voiced_frame)
                  (frequencyData voiced_frame) (audioLevelOf voiced_frame)) in
  let fd := frequencyData voiced_frame in
  stressLevel a ==
  clamp01 ((3 # 10) * calculateHighFrequencyEnergy pow_floor fd
           + (25 # 100) * calculateJitter (pitchHistory sample_histories)
                            (detectFundamentalFrequency fd)
           + (25 # 100) * calculateShimmer (volumeHistory sample_histories)
                            (audioLevelOf voiced_frame)
           + (if Qlt_le_dec (6 # 10) (Centroid.mean_bin_index pow_floor fd)
              then 2 # 10 else 0)).
Proof.
  intros a fd.
  apply (proj1 (proj2 (stressLevel_formula pow_floor sqrt_floor))
           sample_histories sample_histories "session"%string voiced_frame a).
  apply analyzeAudio_passes. rewrite voiced_frame_level. reflexivity.
Defined.

(** ** Pitch variation and the order of the history update *)

Section PitchVariation.

Variable pow_frac : Q -> Q -> Q.
Variable sqrt_irr : Q -> Q.

(** [calculatePitchVariation(pitchHistory)] reads the array the closure
    has bound: the [setPitchHistory] call before it builds a new array
    for the next render and leaves that one as it was. *)
Lemma analyzeAudio_pitchVariation (rendered store : Histories) (sid : string)
    (f : Frame) (a : VoiceAnalysis) :
  fst (analyzeAudio pow_frac sqrt_irr rendered store sid f) = Some a ->
  pitchVariation a = calculatePitchVariation pow_frac sqrt_irr (pitchHistory rendered).
Proof.
  intro H. apply analyzeAudio_emits in H. destruct H as [_ ->]. reflexivity.
Qed.

(** C4 at a concrete tick: after four voiced frames the fifth is analysed
    by a closure over the current state.  The record carries pitchVariation
    0 (four samples, below the minimum of five), whereas the history with
    this tick's frequency pushed, which is the state after the tick, has
    five samples and pitch variation 0.689. *)
Theorem pitchVariation_misses_current_tick :
  let r := tick pow_frac sqrt_irr "session"%string four_pitches fifth_frame in
  let current := detectFundamentalFrequency (frequencyData fifth_frame) in
  run pow_frac sqrt_irr "session"%string initialHistories
    [frame_of x32 4; frame_of x32 4; frame_of x32 4; frame_of x32 4]
    = four_pitches /\
  (exists a, fst r = Some a /\ pitchVariation a = 0) /\
  pitchHistory (snd r) = pitchHistory four_pitches ++ [current] /\
  current == freq 1024 12 /\
  calculatePitchVariation pow_frac sqrt_irr (pitchHistory (snd r)) == 2205 # 3200.
Proof.
  intros r current.
  assert (L : audioLevelOf fifth_frame = 20) by (vm_compute; reflexivity).
  assert (P : 5 < audioLevelOf fifth_frame) by (rewrite L; reflexivity).
  assert (S : pitchHistory (snd r) = pitchHistory four_pitches ++ [current]).
  { unfold r, tick. rewrite analyzeAudio_store.
    apply gtb_spec in P. rewrite P. reflexivity. }
  split.
  { unfold run, tick. cbn [fold_left]. rewrite !analyzeAudio_store.
    vm_compute. reflexivity. }
  split.
  - eexists. split.
    + unfold r, tick. apply analyzeAudio_passes. exact P.
    + reflexivity.
  - split; [exact S|]. split; [vm_compute; reflexivity|].
    rewrite S. vm_compute. reflexivity.
Qed.

End PitchVariation.

(** * Further properties of the analyser *)

(** ** Ranges of the features *)

Lemma byte_sum_nonneg (data : list byte) :
  0 <= JS.reduce (fun sum value => sum + inject_Z (Z.of_N (Byte.to_N value))) 0 data.
Proof.
  unfold JS.reduce.
  rewrite (fold_add_sumQ (fun value => inject_Z (Z.of_N (Byte.to_N value)))).
  rewrite Qplus_0_l. apply sumQ_nonneg.
  apply Forall_forall. intros x Hx. apply in_map_iff in Hx.
  destruct Hx as (b & <- & _).
  change 0 with (inject_Z 0). rewrite <- Zle_Qle. lia.
Qed.

(** X1: the audio level of a frame is a whole number between 0 and 100. *)
Theorem audioLevelOf_range (f : Frame) :
  0 <= audioLevelOf f /\ audioLevelOf f <= 100 /\
  exists z : Z, audioLevelOf f = inject_Z z /\ (0 <= z <= 100)%Z.
Proof.
  assert (H0 : 0 <= audioLevelOf f).
  { unfold audioLevelOf, JS.Math_round.
    change 0 with (inject_Z 0) at 1. rewrite <- Zle_Qle.
    apply (Z.le_trans _ (Qfloor 0)); [discriminate|].
    apply Qfloor_resp_le.
    pose proof (byte_sum_nonneg (dataArray f)) as Hs.
    pose proof (len_nonneg (dataArray f)) as Hl.
    pose proof (Qdiv_nonneg _ _ Hs Hl) as Ha.
    assert (H255 : (0 : Q) <= 255) by discriminate.
    pose proof (Qdiv_nonneg _ _ Ha H255) as Hb.
    set (x := JS.reduce _ 0 (dataArray f) / JS.len (dataArray f) / 255) in *.
    lra. }
  pose proof (audioLevelOf_le_100 f) as H1.
  split; [exact H0|]. split; [exact H1|].
  unfold audioLevelOf in *. eexists. split; [reflexivity|].
  change 0 with (inject_Z 0) in H0. change 100 with (inject_Z 100) in H1.
  rewrite <- Zle_Qle in H0, H1. split; assumption.
Qed.

Lemma floor_index_lt (q : Q) (m : nat) :
  (m < Z.to_nat (Qfloor q))%nat -> JS.num m + 1 <= q.
Proof.
  intro H. pose proof (Qfloor_le q) as Hq.
  assert (Hz : (Z.of_nat m + 1 <= Qfloor q)%Z) by lia.
  rewrite Zle_Qle, inject_Z_plus in Hz. unfold JS.num.
  change (inject_Z 1) with 1 in Hz. lra.
Qed.

Lemma floor_index_ge (q : Q) (m : nat) :
  0 <= q -> (Z.to_nat (Qfloor q) <= m)%nat -> q < JS.num m + 1.
Proof.
  intros H0 H. pose proof (Qlt_floor q) as Hq.
  assert (Hf : (0 <= Qfloor q)%Z).
  { change 0%Z with (Qfloor 0). apply Qfloor_resp_le, H0. }
  assert (Hz : (Qfloor q <= Z.of_nat m)%Z) by lia.
  rewrite Zle_Qle in Hz. rewrite inject_Z_plus in Hq. unfold JS.num.
  change (inject_Z 1) with 1 in Hq. lra.
Qed.

Lemma len_pos {A} (l : list A) : l <> [] -> 0 < JS.len l.
Proof.
  intro H. destruct l as [|x l]; [contradiction|].
  unfold JS.len. change 0 with (inject_Z 0). rewrite <- Zlt_Qlt.
  simpl length. lia.
Qed.

(** X2: the detected frequency of a non-empty spectrum lies in [0, 300).
    It is 0 when every bin the loop visits holds -Infinity, in particular
    when the loop visits no bin; when some visited bin holds a finite level
    it lies less than one bin width below 80 Hz. *)
Theorem detectFundamentalFrequency_range (fd : list dB) :
  fd <> [] ->
  0 <= detectFundamentalFrequency fd /\
  detectFundamentalFrequency fd < 300 /\
  ((forall i, searched fd i -> JS.bin fd i = NegInfinity) ->
     detectFundamentalFrequency fd == 0) /\
  ((exists i, searched fd i /\ JS.bin fd i <> NegInfinity) ->
     80 - 22050 / JS.len fd < detectFundamentalFrequency fd).
Proof.
  intro Hne. pose proof (len_pos fd Hne) as Hlen.
  assert (Hrange : searched fd (detect_maxIndex fd) ->
            80 - 22050 / JS.len fd < detectFundamentalFrequency fd /\
            detectFundamentalFrequency fd < 300).
  { intros [Hlo Hhi].
    unfold detectFundamentalFrequency.
    set (m := detect_maxIndex fd) in *.
    unfold startIndex, endIndex, JS.Math_floor in *.
    assert (Hhi' : (m < Z.to_nat (Qfloor (300 * JS.len fd / 22050)))%nat) by lia.
    apply floor_index_lt in Hhi'.
    assert (H80 : 0 <= 80 * JS.len fd / 22050) by (apply Qdiv_nonneg; lra).
    pose proof (floor_index_ge _ m H80 Hlo) as Hlo'.
    assert (E1 : 300 * JS.len fd / 22050 == JS.len fd * (300 / 22050)) by (field).
    assert (E2 : 80 * JS.len fd / 22050 == JS.len fd * (80 / 22050)) by (field).
    rewrite E1 in Hhi'. rewrite E2 in Hlo'.
    split.
    - apply Qlt_minus_iff.
      assert (E3 : JS.num m * 22050 / JS.len fd + - (80 - 22050 / JS.len fd)
                   == (JS.num m + 1 - JS.len fd * (80 / 22050)) * (22050 / JS.len fd)).
      { field. lra. }
      rewrite E3. apply Qmult_lt_0_compat; [lra|].
      apply Qlt_shift_div_l; lra.
    - apply Qlt_shift_div_r; [exact Hlen|].
      assert (JS.num m < JS.len fd * (300 / 22050)) by lra.
      assert (E4 : 300 * JS.len fd == JS.len fd * (300 / 22050) * 22050) by field.
      rewrite E4. lra. }
  assert (Hzero : detect_maxIndex fd = 0%nat -> detectFundamentalFrequency fd == 0).
  { intro H. unfold detectFundamentalFrequency. rewrite H. unfold JS.num.
    change (inject_Z (Z.of_nat 0)) with 0. unfold Qdiv. ring. }
  destruct (detect_maxIndex_cases fd) as [[Hm Hall]|[[Hs Hpeak] Hfin]].
  - specialize (Hzero Hm).
    split; [rewrite Hzero; apply Qle_refl|].
    split; [rewrite Hzero; reflexivity|].
    split; [intros _; exact Hzero|].
    intros (i & Hi & Hb). destruct (Hb (Hall i Hi)).
  - destruct (Hrange Hs) as [Hlo Hhi].
    split.
    + unfold detectFundamentalFrequency. apply Qdiv_nonneg; [|lra].
      pose proof (num_nonneg (detect_maxIndex fd)). lra.
    + split; [exact Hhi|].
      split; [|intros _; exact Hlo].
      intro Hall. destruct (Hfin (Hall _ Hs)).
Qed.

Lemma detectFundamentalFrequency_range_witness :
  0 <= detectFundamentalFrequency (spectrum_peak 7) /\
  detectFundamentalFrequency (spectrum_peak 7) < 300 /\
  80 - 22050 / JS.len (spectrum_peak 7) < detectFundamentalFrequency (spectrum_peak 7).
Proof.
  assert (N : spectrum_peak 7 <> []) by discriminate.
  destruct (detectFundamentalFrequency_range _ N) as (H0 & H1 & _ & H2).
  split; [exact H0|]. split; [exact H1|].
  apply H2. exists 7%nat. split.
  - unfold searched. split; vm_compute; lia.
  - rewrite spectrum_peak_get by lia. discriminate.
Defined.

(** A spectrum of silence: with every bin at -Infinity the search never
    leaves bin 0. *)
Example detectFundamentalFrequency_silence :
  detectFundamentalFrequency (repeat NegInfinity 1024) == 0.
Proof. vm_compute. reflexivity. Qed.

Lemma Math_pow_10_nonneg (pow_frac : Q -> Q -> Q) :
  (forall e, 0 <= pow_frac 10 e) -> forall e, 0 <= Math_pow pow_frac 10 e.
Proof.
  intros H e. unfold Math_pow.
  destruct (Z.pos (Qden (Qred e)) =? 1)%Z; [|apply H].
  apply Qpower_0_le. discriminate.
Qed.

Lemma pow10_dB_nonneg (pow_frac : Q -> Q -> Q) :
  (forall e, 0 <= pow_frac 10 e) -> forall v, 0 <= pow10_dB pow_frac v.
Proof.
  intros H [|q]; [apply Qle_refl|]. apply Math_pow_10_nonneg, H.
Qed.

Lemma sumQ_map_le {A} (f g : A -> Q) (l : list A) :
  (forall x, In x l -> f x <= g x) -> sumQ (map f l) <= sumQ (map g l).
Proof.
  induction l as [|x l IH]; intro H; simpl; [apply Qle_refl|].
  assert (f x <= g x) by (apply H; left; reflexivity).
  assert (sumQ (map f l) <= sumQ (map g l)) by (apply IH; intros; apply H; right; assumption).
  lra.
Qed.

Lemma sumQ_map_scale {A} (c : Q) (f : A -> Q) (l : list A) :
  sumQ (map (fun x => c * f x) l) == c * sumQ (map f l).
Proof.
  induction l as [|x l IH]; simpl; [ring|]. rewrite IH. ring.
Qed.

Lemma sumQ_map_nonneg {A} (f : A -> Q) (l : list A) :
  (forall x, In x l -> 0 <= f x) -> 0 <= sumQ (map f l).
Proof.
  intro H. apply sumQ_nonneg, Forall_forall. intros y Hy.
  apply in_map_iff in Hy. destruct Hy as (x & <- & Hx). apply H, Hx.
Qed.

Section FeatureRanges.

Variable pow_frac : Q -> Q -> Q.
Hypothesis pow_frac_nonneg : forall e, 0 <= pow_frac 10 e.

(** X3: for a non-empty spectrum the high band (from floor(0.6 n) to the
    end) holds at least one bin, and the high-frequency energy lies in
    [0,1]. *)
Theorem calculateHighFrequencyEnergy_range (fd : list dB) :
  fd <> [] ->
  (highFreqStart fd < length fd)%nat /\
  unit_interval (calculateHighFrequencyEnergy pow_frac fd).
Proof.
  intro Hne. pose proof (len_pos fd Hne) as Hlen.
  assert (Hstart : JS.num (highFreqStart fd) <= JS.len fd * (6 # 10)).
  { unfold highFreqStart, JS.Math_floor, JS.num.
    rewrite Z2Nat.id.
    - apply Qfloor_le.
    - change 0%Z with (Qfloor 0). apply Qfloor_resp_le. lra. }
  assert (Hlt : JS.num (highFreqStart fd) < JS.len fd) by lra.
  split.
  - unfold JS.num, JS.len in Hlt. rewrite <- Zlt_Qlt in Hlt. lia.
  - unfold calculateHighFrequencyEnergy. apply min_1_unit_interval.
    apply Qdiv_nonneg; [|lra].
    unfold JS.for_range.
    rewrite (fold_add_sumQ (fun i => pow10_dB pow_frac (JS.bin fd i))).
    rewrite Qplus_0_l. apply sumQ_map_nonneg.
    intros i _. apply pow10_dB_nonneg, pow_frac_nonneg.
Qed.

(** X4: the spectral centroid is a weighted mean of bin indices: it lies
    between 0 and the index of the last bin. *)
Theorem calculateSpectralCentroid_range (fd : list dB) :
  0 <= calculateSpectralCentroid pow_frac fd /\
  calculateSpectralCentroid pow_frac fd <= JS.len fd - 1 \/
  fd = [] /\ calculateSpectralCentroid pow_frac fd = 0.
Proof.
  destruct fd as [|x0 fd0]; [right; split; reflexivity|left].
  set (fd := x0 :: fd0).
  rewrite calculateSpectralCentroid_mean_bin_index.
  unfold Centroid.mean_bin_index.
  assert (Hlen : 1 <= JS.len fd).
  { unfold JS.len, fd. simpl length. change 1 with (inject_Z 1).
    rewrite <- Zle_Qle. lia. }
  destruct (Qlt_le_dec 0 (Centroid.total_power pow_frac fd)) as [Hpos|Hz];
    [|split; lra].
  assert (Hp : forall i, 0 <= Centroid.power pow_frac (JS.bin fd i)).
  { intro i. apply (pow10_dB_nonneg pow_frac pow_frac_nonneg). }
  assert (Hw0 : 0 <= Centroid.weighted_power pow_frac fd).
  { unfold Centroid.weighted_power, Centroid.sum_bins. apply sumQ_map_nonneg.
    intros i _. apply Qmult_le_0_compat; [apply num_nonneg|apply Hp]. }
  assert (Hw1 : Centroid.weighted_power pow_frac fd
                <= (JS.len fd - 1) * Centroid.total_power pow_frac fd).
  { unfold Centroid.weighted_power, Centroid.total_power, Centroid.sum_bins.
    rewrite <- sumQ_map_scale. apply sumQ_map_le.
    intros i Hi. apply in_seq in Hi.
    apply Qmult_le_compat_r; [|apply Hp].
    unfold JS.num, JS.len.
    assert (Hz : (Z.of_nat i + 1 <= Z.of_nat (length fd))%Z) by lia.
    rewrite Zle_Qle, inject_Z_plus in Hz.
    change (inject_Z 1) with 1 in Hz. lra. }
  split.
  - apply Qdiv_nonneg; lra.
  - apply Qle_shift_div_r; [exact Hpos|exact Hw1].
Qed.

End FeatureRanges.

Lemma diff_sum_nonneg (l : list Q) : 0 <= diff_sum l.
Proof. rewrite diff_sum_consecutive. apply consecutive_abs_diffs_nonneg. Qed.

Lemma recent_count_nonneg (h : list Q) (cur : Q) :
  0 <= JS.len (JS.slice_last 5 h ++ [cur]) - 1.
Proof.
  unfold JS.len. rewrite length_app. simpl length.
  rewrite Nat2Z.inj_add, inject_Z_plus. change (inject_Z (Z.of_nat 1)) with 1.
  pose proof (len_nonneg (JS.slice_last 5 h)) as L. unfold JS.len in L. lra.
Qed.

Lemma calculateJitter_bounds (h : list Q) (cur : Q) :
  unit_interval (calculateJitter h cur).
Proof.
  unfold calculateJitter. destruct (length h <? 3)%nat; [split; lra|].
  apply min_1_unit_interval. apply Qdiv_nonneg; [|lra].
  apply Qdiv_nonneg; [apply diff_sum_nonneg|apply recent_count_nonneg].
Qed.

Lemma calculateShimmer_bounds (h : list Q) (cur : Q) :
  unit_interval (calculateShimmer h cur).
Proof.
  unfold calculateShimmer. destruct (length h <? 3)%nat; [split; lra|].
  apply min_1_unit_interval. apply Qdiv_nonneg; [|lra].
  apply Qdiv_nonneg; [apply diff_sum_nonneg|apply recent_count_nonneg].
Qed.

Lemma calculateHighFrequencyEnergy_le_1 (pow_frac : Q -> Q -> Q) (fd : list dB) :
  calculateHighFrequencyEnergy pow_frac fd <= 1.
Proof. unfold calculateHighFrequencyEnergy, JS.Math_min. apply Q.le_min_r. Qed.

Lemma clamp_gt (x t : Q) :
  0 <= t -> t < JS.Math_min (JS.Math_max x 0) 1 -> t < x.
Proof.
  intros Ht H. rewrite clamp_min_max in H. unfold clamp01 in H.
  destruct (Qlt_le_dec x 0); [lra|]. destruct (Qlt_le_dec 1 x); lra.
Qed.

Lemma clamp_le (x t : Q) :
  0 <= t -> x <= t -> JS.Math_min (JS.Math_max x 0) 1 <= t.
Proof.
  intros Ht H. rewrite clamp_min_max. unfold clamp01.
  destruct (Qlt_le_dec x 0); [lra|]. destruct (Qlt_le_dec 1 x); lra.
Qed.

Lemma pow_floor_nonneg (e : Q) : 0 <= pow_floor 10 e.
Proof. unfold pow_floor. apply Qpower_0_le. discriminate. Qed.

Lemma calculateHighFrequencyEnergy_range_witness :
  (highFreqStart (spectrum_peak 7) < length (spectrum_peak 7))%nat /\
  unit_interval (calculateHighFrequencyEnergy pow_floor (spectrum_peak 7)).
Proof.
  apply (calculateHighFrequencyEnergy_range pow_floor pow_floor_nonneg).
  discriminate.
Defined.

Lemma calculateSpectralCentroid_range_witness :
  0 <= calculateSpectralCentroid pow_floor
         [Finite (-100 # 1); Finite (-100 # 1); Finite 0] /\
  calculateSpectralCentroid pow_floor
    [Finite (-100 # 1); Finite (-100 # 1); Finite 0] <= 2.
Proof.
  destruct (calculateSpectralCentroid_range pow_floor pow_floor_nonneg
              [Finite (-100 # 1); Finite (-100 # 1); Finite 0])
    as [[H0 H1]|[H _]]; [|discriminate H].
  split; [exact H0|]. exact H1.
Defined.

(** ** What each verdict of the classifier implies *)

(** X5: reading the decision list backwards.  [stressed] is returned exactly
    when stress > 0.7; every other verdict implies stress <= 0.7 together
    with the condition of its own rule. *)
Theorem determineEmotionalState_inversion (s c p r : Q) :
  (determineEmotionalState s c p r = stressed <-> 7 # 10 < s) /\
  (determineEmotionalState s c p r = confident <->
     7 # 10 < c /\ s < 3 # 10) /\
  (determineEmotionalState s c p r = uncertain ->
     s <= 7 # 10 /\ 6 # 10 < p /\ r < 4 # 10) /\
  (determineEmotionalState s c p r = anxious ->
     5 # 10 < s /\ s <= 7 # 10 /\ 5 # 10 < p) /\
  (determineEmotionalState s c p r = deceptive ->
     4 # 10 < s /\ s <= 5 # 10 /\ c < 4 # 10 /\ 4 # 10 < p \/
     4 # 10 < s /\ s <= 7 # 10 /\ c < 4 # 10 /\ 4 # 10 < p /\ p <= 5 # 10) /\
  (determineEmotionalState s c p r = calm -> s <= 7 # 10).
Proof.
  unfold determineEmotionalState.
  js_cmp; simpl; repeat split; intros;
    repeat match goal with H : _ /\ _ |- _ => destruct H end;
    try discriminate; try reflexivity; try lra; try (exfalso; lra);
    try (repeat split; lra);
    try (left; repeat split; lra); try (right; repeat split; lra).
Qed.

Lemma determineEmotionalState_inversion_witness :
  4 # 10 < 6 # 10 /\ 6 # 10 <= 7 # 10 /\ 3 # 10 < 4 # 10 /\
  4 # 10 < 45 # 100 /\ 45 # 100 <= 5 # 10.
Proof.
  assert (E : determineEmotionalState (6 # 10) (3 # 10) (45 # 100) (5 # 10)
              = deceptive) by reflexivity.
  destruct (proj1 (proj2 (proj2 (proj2 (proj2
             (determineEmotionalState_inversion
                (6 # 10) (3 # 10) (45 # 100) (5 # 10)))))) E)
    as [(H1 & H2 & _)|(H1 & H2 & H3 & H4 & H5)].
  - exfalso. revert H2. vm_compute. intro H2. apply H2. reflexivity.
  - repeat split; assumption.
Defined.

(** ** Composition of the scores and the classifier *)

Lemma clamp_ge (x t : Q) :
  t <= 1 -> t <= x -> t <= JS.Math_min (JS.Math_max x 0) 1.
Proof.
  intros Ht H. rewrite clamp_min_max. unfold clamp01.
  destruct (Qlt_le_dec x 0); [lra|]. destruct (Qlt_le_dec 1 x); lra.
Qed.

Lemma calculateJitter_short (h : list Q) (cur : Q) :
  (length h < 3)%nat -> calculateJitter h cur = 0.
Proof.
  intro H. unfold calculateJitter. apply Nat.ltb_lt in H. rewrite H. reflexivity.
Qed.

Lemma calculateShimmer_short (h : list Q) (cur : Q) :
  (length h < 3)%nat -> calculateShimmer h cur = 0.
Proof.
  intro H. unfold calculateShimmer. apply Nat.ltb_lt in H. rewrite H. reflexivity.
Qed.

Lemma volumeScore_cases (volume : Q) :
  (if JS.gtb volume 20 && JS.ltb volume 80 then 4 # 10 else 2 # 10) == 4 # 10 \/
  (if JS.gtb volume 20 && JS.ltb volume 80 then 4 # 10 else 2 # 10) == 2 # 10.
Proof.
  destruct (JS.gtb volume 20 && JS.ltb volume 80); [left|right]; reflexivity.
Qed.

Lemma determineEmotionalState_stressed (s c p r : Q) :
  determineEmotionalState s c p r = stressed -> 7 # 10 < s.
Proof.
  unfold determineEmotionalState. js_cmp; simpl; intro H;
    try discriminate H; assumption.
Qed.

Section Composition.

Variable pow_frac : Q -> Q -> Q.
Variable sqrt_irr : Q -> Q.

Lemma performVoiceStressAnalysis_state (rendered : Histories) (sid : string)
    (td : list byte) (fd : list dB) (vol : Q) :
  emotionalState
    (fst (performVoiceStressAnalysis pow_frac sqrt_irr rendered sid td fd vol)) =
  determineEmotionalState
    (calculateStressLevel (calculateHighFrequencyEnergy pow_frac fd)
       (calculateJitter (pitchHistory rendered) (detectFundamentalFrequency fd))
       (calculateShimmer (volumeHistory rendered) vol)
       (calculateSpectralCentroid pow_frac fd))
    (calculateConfidenceLevel vol
       (calculateJitter (pitchHistory rendered) (detectFundamentalFrequency fd))
       (calculateShimmer (volumeHistory rendered) vol))
    (calculatePitchVariation pow_frac sqrt_irr (pitchHistory rendered))
    (calculateSpeechRate (voiceHistory rendered)).
Proof. reflexivity. Qed.

(** X6: the confidence of an emitted record is never clamped: it is the
    volume score (0.4 for a level strictly between 20 and 80, else 0.2)
    plus 0.6 minus 0.3 (jitter + shimmer), and so at least 0.2. *)
Theorem confidenceLevel_unclamped (rendered store : Histories) (sid : string)
    (f : Frame) (a : VoiceAnalysis) :
  fst (analyzeAudio pow_frac sqrt_irr rendered store sid f) = Some a ->
  let jitter := calculateJitter (pitchHistory rendered)
                  (detectFundamentalFrequency (frequencyData f)) in
  let shimmer := calculateShimmer (volumeHistory rendered) (audioLevelOf f) in
  confidenceLevel a ==
    (if JS.gtb (audioLevelOf f) 20 && JS.ltb (audioLevelOf f) 80
     then 4 # 10 else 2 # 10)
    + (6 # 10) - (3 # 10) * (jitter + shimmer) /\
  2 # 10 <= confidenceLevel a.
Proof.
  intros Ha jitter shimmer. apply analyzeAudio_emits in Ha. destruct Ha as [_ ->].
  cbn [fst performVoiceStressAnalysis confidenceLevel].
  fold jitter shimmer. unfold calculateConfidenceLevel.
  destruct (calculateJitter_bounds (pitchHistory rendered)
              (detectFundamentalFrequency (frequencyData f))) as [Hj0 Hj1].
  destruct (calculateShimmer_bounds (volumeHistory rendered) (audioLevelOf f))
    as [Hs0 Hs1].
  fold jitter in Hj0, Hj1. fold shimmer in Hs0, Hs1.
  set (vs := if JS.gtb (audioLevelOf f) 20 && JS.ltb (audioLevelOf f) 80
             then 4 # 10 else 2 # 10).
  assert (Hvs : vs == 4 # 10 \/ vs == 2 # 10) by apply volumeScore_cases.
  rewrite clamp_min_max. unfold clamp01.
  destruct (Qlt_le_dec _ 0); [destruct Hvs; lra|].
  destruct (Qlt_le_dec 1 _); destruct Hvs; split; lra.
Qed.

(** X7: a record is classified [stressed] only when jitter + shimmer
    exceeds 0.8; in particular one of the bound pitch and volume histories
    holds at least three samples. *)
Theorem stressed_needs_instability (rendered store : Histories) (sid : string)
    (f : Frame) (a : VoiceAnalysis) :
  fst (analyzeAudio pow_frac sqrt_irr rendered store sid f) = Some a ->
  emotionalState a = stressed ->
  8 # 10 < calculateJitter (pitchHistory rendered)
             (detectFundamentalFrequency (frequencyData f))
           + calculateShimmer (volumeHistory rendered) (audioLevelOf f) /\
  ((3 <= length (pitchHistory rendered))%nat \/
   (3 <= length (volumeHistory rendered))%nat).
Proof.
  intros Ha Hs. apply analyzeAudio_emits in Ha. destruct Ha as [_ ->].
  rewrite performVoiceStressAnalysis_state in Hs.
  apply determineEmotionalState_stressed in Hs.
  unfold calculateStressLevel in Hs. apply clamp_gt in Hs; [|discriminate].
  pose proof (calculateHighFrequencyEnergy_le_1 pow_frac (frequencyData f)) as Hh.
  set (jitter := calculateJitter _ _) in *.
  set (shimmer := calculateShimmer _ _) in *.
  assert (Hsum : 8 # 10 < jitter + shimmer).
  { destruct (JS.gtb (calculateSpectralCentroid pow_frac (frequencyData f)) (6 # 10));
      lra. }
  split; [exact Hsum|].
  destruct (Nat.lt_ge_cases (length (pitchHistory rendered)) 3) as [Lp|Lp];
    [|left; exact Lp].
  destruct (Nat.lt_ge_cases (length (volumeHistory rendered)) 3) as [Lv|Lv];
    [|right; exact Lv].
  exfalso. unfold jitter, shimmer in Hsum.
  rewrite calculateJitter_short, calculateShimmer_short in Hsum by assumption.
  revert Hsum. discriminate.
Qed.

(** X8: while the bound pitch and volume histories hold fewer than three
    samples, a record has stress at most 0.5, confidence at least 0.8 and
    pitch variation 0, and its state is [confident] when stress < 0.3 and
    [calm] otherwise. *)
Theorem early_records_confident_or_calm (rendered store : Histories)
    (sid : string) (f : Frame) (a : VoiceAnalysis) :
  (length (pitchHistory rendered) < 3)%nat ->
  (length (volumeHistory rendered) < 3)%nat ->
  fst (analyzeAudio pow_frac sqrt_irr rendered store sid f) = Some a ->
  stressLevel a <= 5 # 10 /\
  8 # 10 <= confidenceLevel a /\
  pitchVariation a = 0 /\
  emotionalState a = (if JS.ltb (stressLevel a) (3 # 10) then confident else calm).
Proof.
  intros Lp Lv Ha. apply analyzeAudio_emits in Ha. destruct Ha as [_ ->].
  cbn [fst performVoiceStressAnalysis stressLevel confidenceLevel
       pitchVariation emotionalState].
  rewrite (calculateJitter_short _ _ Lp), (calculateShimmer_short _ _ Lv).
  assert (Hpv : calculatePitchVariation pow_frac sqrt_irr (pitchHistory rendered) = 0).
  { unfold calculatePitchVariation.
    replace (length (pitchHistory rendered) <? 5)%nat with true; [reflexivity|].
    symmetry. apply Nat.ltb_lt. lia. }
  rewrite Hpv.
  pose proof (calculateHighFrequencyEnergy_le_1 pow_frac (frequencyData f)) as Hh.
  set (hfe := calculateHighFrequencyEnergy pow_frac (frequencyData f)) in *.
  set (c := calculateSpectralCentroid pow_frac (frequencyData f)).
  assert (Hs : calculateStressLevel hfe 0 0 c <= 5 # 10).
  { unfold calculateStressLevel. apply clamp_le; [discriminate|].
    destruct (JS.gtb c (6 # 10)); lra. }
  assert (Hc : 8 # 10 <= calculateConfidenceLevel (audioLevelOf f) 0 0).
  { unfold calculateConfidenceLevel. apply clamp_ge; [discriminate|].
    destruct (JS.gtb (audioLevelOf f) 20 && JS.ltb (audioLevelOf f) 80); lra. }
  split; [exact Hs|]. split; [exact Hc|]. split; [reflexivity|].
  set (s := calculateStressLevel hfe 0 0 c) in *.
  set (cf := calculateConfidenceLevel (audioLevelOf f) 0 0) in *.
  unfold determineEmotionalState. js_cmp; simpl; try reflexivity; exfalso; lra.
Qed.

End Composition.

Lemma flat_frame_level : audioLevelOf flat_frame = 20.
Proof. vm_compute. reflexivity. Qed.

Lemma confidenceLevel_unclamped_witness :
  let a := fst (performVoiceStressAnalysis pow_floor sqrt_floor sample_histories
                  "session"%string (dataArray voiced_frame)
                  (frequencyData voiced_frame) (audioLevelOf voiced_frame)) in
  2 # 10 <= confidenceLevel a.
Proof.
  intro a.
  apply (confidenceLevel_unclamped pow_floor sqrt_floor
           sample_histories sample_histories "session"%string voiced_frame a).
  apply analyzeAudio_passes. rewrite voiced_frame_level. reflexivity.
Defined.

Lemma stressed_needs_instability_witness :
  8 # 10 < calculateJitter (pitchHistory unstable_histories)
             (detectFundamentalFrequency (frequencyData flat_frame))
           + calculateShimmer (volumeHistory unstable_histories)
               (audioLevelOf flat_frame).
Proof.
  apply (stressed_needs_instability pow_floor sqrt_floor
           unstable_histories unstable_histories "session"%string flat_frame
           (fst (performVoiceStressAnalysis pow_floor sqrt_floor unstable_histories
                   "session"%string (dataArray flat_frame)
                   (frequencyData flat_frame) (audioLevelOf flat_frame)))).
  - apply analyzeAudio_passes. rewrite flat_frame_level. reflexivity.
  - vm_compute. reflexivity.
Defined.

Lemma early_records_confident_or_calm_witness :
  let a := fst (performVoiceStressAnalysis pow_floor sqrt_floor initialHistories
                  "session"%string (dataArray voiced_frame)
                  (frequencyData voiced_frame) (audioLevelOf voiced_frame)) in
  stressLevel a <= 5 # 10 /\
  8 # 10 <= confidenceLevel a /\
  pitchVariation a = 0 /\
  emotionalState a = (if JS.ltb (stressLevel a) (3 # 10) then confident else calm).
Proof.
  intro a.
  apply (early_records_confident_or_calm pow_floor sqrt_floor
           initialHistories initialHistories "session"%string voiced_frame a).
  - simpl. lia.
  - simpl. lia.
  - apply analyzeAudio_passes. rewrite voiced_frame_level. reflexivity.
Defined.

(** ** Speech rate *)

Lemma filter_length_le_Q {A} (p : A -> bool) (l : list A) :
  JS.num (length (filter p l)) <= JS.len l.
Proof.
  unfold JS.num, JS.len. rewrite <- Zle_Qle.
  pose proof (filter_length_le p l). lia.
Qed.

Lemma filter_length_all {A} (p : A -> bool) (l : list A) :
  length (filter p l) = length l <-> Forall (fun x => p x = true) l.
Proof.
  induction l as [|x l IH]; simpl.
  - split; [constructor|reflexivity].
  - pose proof (filter_length_le p l) as Hle.
    destruct (p x) eqn:E; simpl; split; intro H.
    + constructor; [exact E|]. apply IH. lia.
    + inversion H; subst. f_equal. apply IH. assumption.
    + lia.
    + inversion H; subst. congruence.
Qed.

Lemma filter_length_none {A} (p : A -> bool) (l : list A) :
  length (filter p l) = 0%nat <-> Forall (fun x => p x = false) l.
Proof.
  induction l as [|x l IH]; simpl.
  - split; [constructor|reflexivity].
  - destruct (p x) eqn:E; simpl; split; intro H.
    + discriminate.
    + inversion H; subst. congruence.
    + constructor; [exact E|apply IH, H].
    + inversion H; subst. apply IH. assumption.
Qed.

(** X9: with at least ten samples the speech rate is the fraction of
    samples above level 10 (the cap at 1 never applies): it is 1 exactly
    when every sample exceeds 10 and 0 exactly when none does. *)
Theorem calculateSpeechRate_fraction (h : list Q) :
  (10 <= length h)%nat ->
  calculateSpeechRate h * JS.len h
    == JS.num (length (filter (fun vol => JS.gtb vol 10) h)) /\
  (calculateSpeechRate h == 1 <-> Forall (fun vol => 10 < vol) h) /\
  (calculateSpeechRate h == 0 <-> Forall (fun vol => vol <= 10) h).
Proof.
  intro H. unfold calculateSpeechRate.
  replace (length h <? 10)%nat with false by (symmetry; apply Nat.ltb_ge, H).
  set (k := length (filter (fun vol => JS.gtb vol 10) h)).
  assert (Hlen : 0 < JS.len h).
  { unfold JS.len. change 0 with (inject_Z 0). rewrite <- Zlt_Qlt. lia. }
  assert (Hle : JS.num k <= JS.len h) by apply filter_length_le_Q.
  assert (Hdiv : JS.num k / JS.len h <= 1).
  { apply Qle_shift_div_r; [exact Hlen|lra]. }
  assert (E : JS.Math_min (JS.num k / JS.len h) 1 == JS.num k / JS.len h).
  { unfold JS.Math_min. apply Q.min_l, Hdiv. }
  rewrite E.
  assert (Hmul : JS.num k / JS.len h * JS.len h == JS.num k).
  { field. lra. }
  split; [exact Hmul|]. split.
  - split; intro H1.
    + assert (Hk : JS.num k == JS.len h) by (rewrite <- Hmul, H1; ring).
      unfold JS.num, JS.len in Hk. apply (proj1 (inject_Z_injective _ _)) in Hk.
      apply Nat2Z.inj in Hk. apply filter_length_all in Hk.
      eapply Forall_impl; [|exact Hk]. intros v Hv. apply gtb_spec, Hv.
    + assert (Hk : k = length h).
      { apply filter_length_all. eapply Forall_impl; [|exact H1].
        intros v Hv. apply gtb_spec, Hv. }
      rewrite Hk. change (JS.len h / JS.len h == 1). field. lra.
  - split; intro H0.
    + assert (Hk : JS.num k == 0) by (rewrite <- Hmul, H0; ring).
      unfold JS.num in Hk. change 0 with (inject_Z 0) in Hk.
      apply (proj1 (inject_Z_injective _ _)) in Hk.
      assert (Hk' : k = 0%nat) by lia. apply filter_length_none in Hk'.
      eapply Forall_impl; [|exact Hk']. intros v Hv. apply gtb_false, Hv.
    + assert (Hk : k = 0%nat).
      { apply filter_length_none. eapply Forall_impl; [|exact H0].
        intros v Hv. apply gtb_false, Hv. }
      rewrite Hk. unfold JS.num. change (inject_Z (Z.of_nat 0)) with 0.
      unfold Qdiv. ring.
Qed.

Lemma calculateSpeechRate_fraction_witness :
  calculateSpeechRate [20; 8; 20; 8; 20; 8; 20; 8; 20; 8] * 10 == 5.
Proof.
  apply (proj1 (calculateSpeechRate_fraction
                  [20; 8; 20; 8; 20; 8; 20; 8; 20; 8]
                  (Nat.le_refl 10))).
Defined.

(** ** Steady input *)

Lemma sumQ_map_zero {A} (f : A -> Q) (l : list A) :
  (forall x, In x l -> f x == 0) -> sumQ (map f l) == 0.
Proof.
  induction l as [|x l IH]; intro H; simpl; [reflexivity|].
  rewrite (H x (or_introl eq_refl)), IH; [ring|].
  intros y Hy. apply H. right. exact Hy.
Qed.

Lemma sumQ_const (v : Q) (l : list Q) :
  Forall (fun x => x == v) l -> sumQ l == JS.len l * v.
Proof.
  induction 1 as [|x l Hx _ IH].
  - unfold JS.len. simpl. change (inject_Z 0) with 0. ring.
  - simpl sumQ. unfold JS.len in *. simpl length.
    rewrite Nat2Z.inj_succ, <- Z.add_1_r, inject_Z_plus.
    change (inject_Z 1) with 1. rewrite IH, Hx. ring.
Qed.

Lemma mean_of_const (v : Q) (l : list Q) :
  l <> [] -> Forall (fun x => x == v) l -> mean_of l == v.
Proof.
  intros Hne H. unfold mean_of, JS.reduce.
  rewrite (fold_add_sumQ (fun val => val)), map_id, Qplus_0_l.
  rewrite (sumQ_const v l H). field.
  pose proof (len_pos l Hne). lra.
Qed.

Lemma variance_of_const (pow_frac : Q -> Q -> Q) (v : Q) (l : list Q) :
  l <> [] -> Forall (fun x => x == v) l -> variance_of pow_frac l == 0.
Proof.
  intros Hne H. unfold variance_of, JS.reduce.
  rewrite (fold_add_sumQ (fun val => Math_pow pow_frac (val - mean_of l) 2)).
  rewrite Qplus_0_l, sumQ_map_zero; [unfold Qdiv; ring|].
  intros x Hx. rewrite Math_pow_2.
  rewrite Forall_forall in H. rewrite (H x Hx), (mean_of_const v l Hne).
  - ring.
  - apply Forall_forall, H.
Qed.

Lemma Math_sqrt_zero (sqrt_irr : Q -> Q) (x : Q) :
  x == 0 -> Math_sqrt sqrt_irr x == 0.
Proof.
  intro H. unfold Math_sqrt. rewrite (Qred_complete x 0 H). reflexivity.
Qed.

Lemma consecutive_abs_diffs_const (v : Q) (l : list Q) :
  Forall (fun x => x == v) l -> Instability.consecutive_abs_diffs l == 0.
Proof.
  induction 1 as [|a l Ha Hl IH]; [reflexivity|].
  destruct Hl as [|b t Hb Ht]; [reflexivity|].
  change (Qabs (b - a) + Instability.consecutive_abs_diffs (b :: t) == 0).
  rewrite IH. assert (E : b - a == 0) by (rewrite Ha, Hb; ring).
  rewrite E. reflexivity.
Qed.

Lemma recent_const (v : Q) (h : list Q) :
  Forall (fun x => x == v) h ->
  diff_sum (JS.slice_last 5 h ++ [v]) == 0.
Proof.
  intro H. rewrite diff_sum_consecutive.
  apply (consecutive_abs_diffs_const v).
  apply Forall_app. split.
  - unfold JS.slice_last. apply Forall_skipn, H.
  - constructor; [reflexivity|constructor].
Qed.

Lemma steady_history_values (pow_frac : Q -> Q -> Q) (sqrt_irr : Q -> Q)
    (v : Q) (h : list Q) :
  Forall (fun x => x == v) h ->
  calculatePitchVariation pow_frac sqrt_irr h == 0 /\
  calculateVolumeConsistency pow_frac sqrt_irr h == 1.
Proof.
  intro H.
  assert (Hne : (length h <? 5)%nat = false -> h <> []).
  { intros L E. rewrite E in L. discriminate L. }
  unfold calculatePitchVariation, calculateVolumeConsistency.
  split.
  - destruct (length h <? 5)%nat eqn:L; [reflexivity|].
    rewrite (Math_sqrt_zero sqrt_irr _ (variance_of_const pow_frac v h (Hne eq_refl) H)).
    unfold JS.Math_min, Qdiv. rewrite Qmult_0_l. apply Q.min_l. discriminate.
  - destruct (length h <? 5)%nat eqn:L; [reflexivity|].
    rewrite (Math_sqrt_zero sqrt_irr _ (variance_of_const pow_frac v h (Hne eq_refl) H)).
    unfold JS.Math_max, Qdiv. rewrite Qmult_0_l. apply Q.max_l. discriminate.
Qed.

Lemma filter_repeat_true {A} (p : A -> bool) (x : A) (n : nat) :
  p x = true -> filter p (repeat x n) = repeat x n.
Proof.
  intro H. induction n as [|n IH]; simpl; [reflexivity|].
  rewrite H, IH. reflexivity.
Qed.

Lemma filter_repeat_false {A} (p : A -> bool) (x : A) (n : nat) :
  p x = false -> filter p (repeat x n) = [].
Proof.
  intro H. induction n as [|n IH]; simpl; [reflexivity|].
  rewrite H, IH. reflexivity.
Qed.

(** X10: on a history whose samples all equal the current value, jitter
    and shimmer are 0, pitch variation is 0 and volume consistency is 1,
    whatever the length of the history. *)
Theorem steady_history_scores (pow_frac : Q -> Q -> Q) (sqrt_irr : Q -> Q)
    (v : Q) (h : list Q) :
  Forall (fun x => x == v) h ->
  calculateJitter h v == 0 /\
  calculateShimmer h v == 0 /\
  calculatePitchVariation pow_frac sqrt_irr h == 0 /\
  calculateVolumeConsistency pow_frac sqrt_irr h == 1.
Proof.
  intro H.
  split; [|split; [|apply (steady_history_values pow_frac sqrt_irr v h H)]].
  - unfold calculateJitter. destruct (length h <? 3)%nat; [reflexivity|].
    rewrite (recent_const v h H). unfold JS.Math_min, Qdiv.
    rewrite !Qmult_0_l. apply Q.min_l. discriminate.
  - unfold calculateShimmer. destruct (length h <? 3)%nat; [reflexivity|].
    rewrite (recent_const v h H). unfold JS.Math_min, Qdiv.
    rewrite !Qmult_0_l. apply Q.min_l. discriminate.
Qed.

Lemma steady_history_scores_witness :
  calculateJitter [20; 20; 20; 20; 20; 20] 20 == 0 /\
  calculateShimmer [20; 20; 20; 20; 20; 20] 20 == 0 /\
  calculatePitchVariation pow_floor sqrt_floor [20; 20; 20; 20; 20; 20] == 0 /\
  calculateVolumeConsistency pow_floor sqrt_floor [20; 20; 20; 20; 20; 20] == 1.
Proof.
  apply steady_history_scores.
  repeat constructor.
Defined.

(** ** Sequences of frames *)

Section Sequences.

Variable pow_frac : Q -> Q -> Q.
Variable sqrt_irr : Q -> Q.

Lemma tick_store (sid : string) (h : Histories) (f : Frame) :
  snd (tick pow_frac sqrt_irr sid h f) =
  if audible f
  then updateHistories (detectFundamentalFrequency (frequencyData f))
         (audioLevelOf f) h
  else h.
Proof. unfold tick, audible. apply analyzeAudio_store. Qed.

Lemma updateHistories_lengths (freq0 vol : Q) (h : Histories) (m : nat) :
  history_lengths h (Nat.min 20 m) ->
  history_lengths (updateHistories freq0 vol h) (Nat.min 20 (m + 1)).
Proof.
  intros (H1 & H2 & H3). unfold history_lengths, updateHistories.
  cbn [voiceHistory pitchHistory volumeHistory].
  rewrite !push_length, H1, H2, H3. repeat split; lia.
Qed.

Lemma run_lengths_from (sid : string) (frames : list Frame) (h : Histories) (m : nat) :
  history_lengths h (Nat.min 20 m) ->
  history_lengths (run pow_frac sqrt_irr sid h frames)
    (Nat.min 20 (m + length (filter audible frames))).
Proof.
  revert h m. induction frames as [|f frames IH]; intros h m H.
  - simpl. rewrite Nat.add_0_r. exact H.
  - simpl. rewrite tick_store. destruct (audible f).
    + simpl length. replace (m + S (length (filter audible frames)))%nat
        with ((m + 1) + length (filter audible frames))%nat by lia.
      apply IH, updateHistories_lengths, H.
    + apply IH, H.
Qed.

(** X11: after any sequence of frames fed to the empty histories, the three
    histories have the same length: the number of frames above the silence
    threshold, capped at 20. *)
Theorem run_history_lengths (sid : string) (frames : list Frame) :
  history_lengths (run pow_frac sqrt_irr sid initialHistories frames)
    (Nat.min 20 (length (filter audible frames))).
Proof.
  apply (run_lengths_from sid frames initialHistories 0).
  repeat split.
Qed.

(** X12: frames at or below the silence threshold can be removed from a
    sequence without changing the state it leads to. *)
Theorem run_skips_silent_frames (sid : string) (h : Histories) (frames : list Frame) :
  run pow_frac sqrt_irr sid h frames =
  run pow_frac sqrt_irr sid h (filter audible frames).
Proof.
  revert h. induction frames as [|f frames IH]; intro h; [reflexivity|].
  simpl. rewrite tick_store. destruct (audible f) eqn:A.
  - simpl. rewrite tick_store, A. apply IH.
  - apply IH.
Qed.

Lemma run_repeat_steady (sid : string) (f : Frame) (n : nat) (h : Histories) :
  audible f = true ->
  Forall (eq (detectFundamentalFrequency (frequencyData f))) (pitchHistory h) ->
  Forall (eq (audioLevelOf f)) (volumeHistory h) ->
  Forall (eq (audioLevelOf f)) (voiceHistory h) ->
  let h' := run pow_frac sqrt_irr sid h (repeat f n) in
  Forall (eq (detectFundamentalFrequency (frequencyData f))) (pitchHistory h') /\
  Forall (eq (audioLevelOf f)) (volumeHistory h') /\
  Forall (eq (audioLevelOf f)) (voiceHistory h').
Proof.
  intro A. revert h. induction n as [|n IH]; intros h Hp Hv Hs.
  - simpl. repeat split; assumption.
  - simpl. rewrite tick_store, A.
    apply IH; simpl; apply push_Forall; auto.
Qed.

Lemma run_repeat_histories (sid : string) (f : Frame) (m : nat) :
  audible f = true ->
  let h := run pow_frac sqrt_irr sid initialHistories (repeat f m) in
  pitchHistory h = repeat (detectFundamentalFrequency (frequencyData f)) (Nat.min 20 m) /\
  volumeHistory h = repeat (audioLevelOf f) (Nat.min 20 m) /\
  voiceHistory h = repeat (audioLevelOf f) (Nat.min 20 m).
Proof.
  intros A h.
  destruct (run_repeat_steady sid f m initialHistories A
              (Forall_nil _) (Forall_nil _) (Forall_nil _))
    as (Hp & Hv & Hs).
  fold h in Hp, Hv, Hs.
  pose proof (run_lengths_from sid (repeat f m) initialHistories 0
                (conj eq_refl (conj eq_refl eq_refl))) as (L1 & L2 & L3).
  cbn [Nat.add] in L1, L2, L3. fold h in L1, L2, L3.
  assert (Lf : length (filter audible (repeat f m)) = m).
  { clear -A. induction m as [|m IH]; simpl; [reflexivity|].
    rewrite A. simpl. f_equal. exact IH. }
  rewrite Lf in L1, L2, L3.
  assert (R : forall (v : Q) (l : list Q) k,
            Forall (eq v) l -> length l = k -> l = repeat v k).
  { intros v l k Hl <-. induction Hl as [|x l <- _ IH]; simpl; [reflexivity|].
    f_equal. exact IH. }
  split; [exact (R _ _ _ Hp L2)|].
  split; [exact (R _ _ _ Hv L3)|exact (R _ _ _ Hs L1)].
Qed.

(** X13: when the same audible frame is fed again and again to the empty
    histories, every stored pitch is that frame's frequency and every
    stored level is that frame's level.  [analyzeAudio] reschedules itself,
    so a loop keeps the closure of the render that started it: with [k] of
    those frames stored when the loop was started ([k = 0] for a loop that
    was never stopped) and [n] stored by now, a record emitted for the same
    frame has pitch variation 0 and volume consistency 1, and its speech
    rate is 0.5 when [k < 10], and otherwise 1 or 0 as the level exceeds 10
    or not. *)
Theorem repeated_frame_steady_state (sid : string) (f : Frame) (k n : nat)
    (a : VoiceAnalysis) :
  audible f = true ->
  let rendered := run pow_frac sqrt_irr sid initialHistories (repeat f k) in
  let store := run pow_frac sqrt_irr sid initialHistories (repeat f n) in
  fst (analyzeAudio pow_frac sqrt_irr rendered store sid f) = Some a ->
  pitchHistory store =
    repeat (detectFundamentalFrequency (frequencyData f)) (Nat.min 20 n) /\
  volumeHistory store = repeat (audioLevelOf f) (Nat.min 20 n) /\
  voiceHistory store = repeat (audioLevelOf f) (Nat.min 20 n) /\
  pitchVariation a == 0 /\
  volumeConsistency a == 1 /\
  speechRate a ==
    (if (k <? 10)%nat then 1 # 2
     else if JS.gtb (audioLevelOf f) 10 then 1 else 0).
Proof.
  intros A rendered store Ha.
  destruct (run_repeat_histories sid f n A) as (Sp & Sv & Ss).
  fold store in Sp, Sv, Ss.
  split; [exact Sp|]. split; [exact Sv|]. split; [exact Ss|].
  destruct (run_repeat_histories sid f k A) as (Rp & Rv & Rs).
  fold rendered in Rp, Rv, Rs.
  apply analyzeAudio_emits in Ha. destruct Ha as [_ ->].
  cbn [fst performVoiceStressAnalysis pitchVariation volumeConsistency speechRate].
  assert (Hp' : Forall (fun x => x == detectFundamentalFrequency (frequencyData f))
                  (pitchHistory rendered)).
  { rewrite Rp. apply Forall_forall. intros x Hx.
    apply repeat_spec in Hx. rewrite Hx. reflexivity. }
  assert (Hv' : Forall (fun x => x == audioLevelOf f) (volumeHistory rendered)).
  { rewrite Rv. apply Forall_forall. intros x Hx.
    apply repeat_spec in Hx. rewrite Hx. reflexivity. }
  destruct (steady_history_values pow_frac sqrt_irr _ _ Hp') as [E1 _].
  destruct (steady_history_values pow_frac sqrt_irr _ _ Hv') as [_ E2].
  split; [exact E1|]. split; [exact E2|].
  unfold calculateSpeechRate. rewrite Rs, repeat_length.
  destruct (k <? 10)%nat eqn:N.
  - apply Nat.ltb_lt in N.
    replace (Nat.min 20 k <? 10)%nat with true by (symmetry; apply Nat.ltb_lt; lia).
    reflexivity.
  - apply Nat.ltb_ge in N.
    replace (Nat.min 20 k <? 10)%nat with false by (symmetry; apply Nat.ltb_ge; lia).
    assert (Hlen : 0 < JS.len (repeat (audioLevelOf f) (Nat.min 20 k))).
    { unfold JS.len. rewrite repeat_length. change 0 with (inject_Z 0).
      rewrite <- Zlt_Qlt. lia. }
    destruct (JS.gtb (audioLevelOf f) 10) eqn:G.
    + rewrite filter_repeat_true by exact G.
      change (JS.num (length (repeat (audioLevelOf f) (Nat.min 20 k))))
        with (JS.len (repeat (audioLevelOf f) (Nat.min 20 k))).
      unfold JS.Math_min. rewrite Q.min_r; [reflexivity|].
      apply Qle_shift_div_l; [exact Hlen|lra].
    + rewrite filter_repeat_false by exact G.
      unfold JS.Math_min, JS.num. simpl length.
      change (inject_Z (Z.of_nat 0)) with 0.
      unfold Qdiv. rewrite Qmult_0_l. apply Q.min_l. discriminate.
Qed.

End Sequences.

Lemma repeated_frame_steady_state_witness :
  let started := initialHistories in
  let restarted := run pow_floor sqrt_floor "session"%string initialHistories
                     (repeat voiced_frame 12) in
  let store := run pow_floor sqrt_floor "session"%string initialHistories
                 (repeat voiced_frame 12) in
  let record rendered :=
    fst (performVoiceStressAnalysis pow_floor sqrt_floor rendered
           "session"%string (dataArray voiced_frame)
           (frequencyData voiced_frame) (audioLevelOf voiced_frame)) in
  (pitchVariation (record started) == 0 /\
   volumeConsistency (record started) == 1 /\
   speechRate (record started) == 1 # 2) /\
  (pitchVariation (record restarted) == 0 /\
   volumeConsistency (record restarted) == 1 /\
   speechRate (record restarted) == 1).
Proof.
  intros started restarted store record.
  assert (A : audible voiced_frame = true) by (vm_compute; reflexivity).
  assert (P : 5 < audioLevelOf voiced_frame) by (rewrite voiced_frame_level; reflexivity).
  pose proof (analyzeAudio_passes pow_floor sqrt_floor started store
                "session"%string voiced_frame P) as E0.
  pose proof (analyzeAudio_passes pow_floor sqrt_floor restarted store
                "session"%string voiced_frame P) as E12.
  pose proof (repeated_frame_steady_state pow_floor sqrt_floor "session"%string
                voiced_frame 0 12 (record started) A E0)
    as (_ & _ & _ & H1 & H2 & H3).
  pose proof (repeated_frame_steady_state pow_floor sqrt_floor "session"%string
                voiced_frame 12 12 (record restarted) A E12)
    as (_ & _ & _ & H4 & H5 & H6).
  split; [split; [exact H1|split; [exact H2|exact H3]]|].
  split; [exact H4|split; [exact H5|]].
  rewrite voiced_frame_level in H6. exact H6.
Defined.

(** * Properties of the dashboard, the logger and the detectors *)

(** ** Sets and counters *)

Section KeyedFacts.

Variable K : Type.
Variable eqb : K -> K -> bool.
Hypothesis eqb_spec : forall a b, eqb a b = true <-> a = b.

Lemma eqb_refl_K (a : K) : eqb a a = true.
Proof. apply eqb_spec. reflexivity. Qed.

Lemma eqb_neq_K (a b : K) : a <> b -> eqb a b = false.
Proof.
  intro H. destruct (eqb a b) eqn:E; [|reflexivity].
  apply eqb_spec in E. contradiction.
Qed.

Lemma existsb_eqb_In (k : K) (s : list K) : existsb (eqb k) s = true <-> In k s.
Proof.
  rewrite existsb_exists. split.
  - intros (x & Hx & E). apply eqb_spec in E. subst. exact Hx.
  - intro H. exists k. split; [exact H|apply eqb_refl_K].
Qed.

Lemma set_add_In (s : list K) (k x : K) :
  In x (JSX.set_add eqb s k) <-> In x s \/ x = k.
Proof.
  unfold JSX.set_add. destruct (existsb (eqb k) s) eqn:E.
  - apply existsb_eqb_In in E. split; [intro H; left; exact H|].
    intros [H| ->]; assumption.
  - rewrite in_app_iff. simpl. split.
    + intros [H|[<-|[]]]; [left; exact H|right; reflexivity].
    + intros [H| ->]; [left; exact H|right; left; reflexivity].
Qed.

Lemma set_add_NoDup (s : list K) (k : K) :
  NoDup s -> NoDup (JSX.set_add eqb s k).
Proof.
  intro H. unfold JSX.set_add. destruct (existsb (eqb k) s) eqn:E; [exact H|].
  assert (N : ~ In k s).
  { intro I. apply existsb_eqb_In in I. congruence. }
  apply NoDup_app; [exact H|constructor; [intros []|constructor]|].
  intros x Hx [<-|[]]. exact (N Hx).
Qed.

Lemma fold_set_add (l s : list K) :
  NoDup s ->
  NoDup (fold_left (JSX.set_add eqb) l s) /\
  forall x, In x (fold_left (JSX.set_add eqb) l s) <-> In x s \/ In x l.
Proof.
  revert s. induction l as [|k l IH]; intros s H; simpl.
  - split; [exact H|]. intro x. tauto.
  - destruct (IH _ (set_add_NoDup s k H)) as [N I]. split; [exact N|].
    intro x. rewrite I, set_add_In. simpl. intuition (subst; auto).
Qed.

Lemma Set_of_spec (l : list K) :
  NoDup (JSX.Set_of eqb l) /\ forall x, In x (JSX.Set_of eqb l) <-> In x l.
Proof.
  destruct (fold_set_add l [] (NoDup_nil K)) as [N I]. split; [exact N|].
  intro x. unfold JSX.Set_of. rewrite I. simpl. tauto.
Qed.

Local Abbreviation get_count := (JSX.get_count eqb).
Local Abbreviation count_of := (JSX.count_of eqb).

Lemma bump_keys (k : K) (acc : list (K * nat)) :
  map fst (JSX.bump eqb k acc) = JSX.set_add eqb (map fst acc) k.
Proof.
  unfold JSX.set_add. induction acc as [|[k' n] t IH]; simpl; [reflexivity|].
  destruct (eqb k' k) eqn:E.
  - apply eqb_spec in E. subst. rewrite eqb_refl_K. reflexivity.
  - assert (E' : eqb k k' = false).
    { apply eqb_neq_K. intros ->. rewrite eqb_refl_K in E. discriminate. }
    rewrite E'. simpl. rewrite IH.
    destruct (existsb (eqb k) (map fst t)); reflexivity.
Qed.

Lemma bump_get_count (k k' : K) (acc : list (K * nat)) :
  get_count k' (JSX.bump eqb k acc) =
  (get_count k' acc + if eqb k k' then 1 else 0)%nat.
Proof.
  unfold JSX.get_count. induction acc as [|[k0 n] t IH]; simpl.
  - destruct (eqb k k'); reflexivity.
  - destruct (eqb k0 k) eqn:E0; simpl.
    + apply eqb_spec in E0. subst k0.
      destruct (eqb k k'); simpl; lia.
    + destruct (eqb k0 k') eqn:E1; simpl.
      * apply eqb_spec in E1. subst k0.
        rewrite (eqb_neq_K k k'); [lia|].
        intros ->. rewrite eqb_refl_K in E0. discriminate.
      * exact IH.
Qed.

Lemma bump_total (k : K) (acc : list (K * nat)) :
  list_sum (map snd (JSX.bump eqb k acc)) = S (list_sum (map snd acc)).
Proof.
  induction acc as [|[k0 n] t IH]; simpl; [reflexivity|].
  destruct (eqb k0 k); simpl; [reflexivity|]. rewrite IH. lia.
Qed.

Lemma bump_positive (k : K) (acc : list (K * nat)) :
  Forall (fun e => (1 <= snd e)%nat) acc ->
  Forall (fun e => (1 <= snd e)%nat) (JSX.bump eqb k acc).
Proof.
  induction 1 as [|[k0 n] t H0 Ht IH]; simpl.
  - constructor; [simpl; lia|constructor].
  - destruct (eqb k0 k); constructor; simpl in *; try lia; assumption.
Qed.

Lemma fold_bump {A} (key : A -> K) (l : list A) (acc : list (K * nat)) :
  let r := fold_left (fun acc item => JSX.bump eqb (key item) acc) l acc in
  map fst r = fold_left (JSX.set_add eqb) (map key l) (map fst acc) /\
  (forall k, get_count k r = (get_count k acc + count_of key k l)%nat) /\
  list_sum (map snd r) = (list_sum (map snd acc) + length l)%nat /\
  (Forall (fun e => (1 <= snd e)%nat) acc -> Forall (fun e => (1 <= snd e)%nat) r).
Proof.
  revert acc. induction l as [|x l IH]; intro acc; simpl.
  - split; [reflexivity|].
    split; [intro k; unfold JSX.count_of; simpl; lia|].
    split; [lia|auto].
  - destruct (IH (JSX.bump eqb (key x) acc)) as (H1 & H2 & H3 & H4).
    split; [rewrite H1, bump_keys; reflexivity|].
    split; [|split].
    + intro k. rewrite H2, bump_get_count. unfold JSX.count_of. simpl.
      destruct (eqb (key x) k); simpl; lia.
    + rewrite H3, bump_total. lia.
    + intro P. apply H4, bump_positive, P.
Qed.

Lemma get_count_In (k : K) (n : nat) (acc : list (K * nat)) :
  NoDup (map fst acc) -> In (k, n) acc -> get_count k acc = n.
Proof.
  unfold JSX.get_count. induction acc as [|[k0 m] t IH]; intros N I; [destruct I|].
  simpl in *. inversion N as [|? ? N1 N2]; subst.
  destruct I as [E|I].
  - inversion E; subst. rewrite eqb_refl_K. reflexivity.
  - destruct (eqb k0 k) eqn:E0.
    + apply eqb_spec in E0. subst. exfalso. apply N1.
      apply in_map_iff. exists (k, n). split; [reflexivity|exact I].
    + apply IH; assumption.
Qed.

Lemma In_get_count (k : K) (acc : list (K * nat)) :
  (1 <= get_count k acc)%nat -> In (k, get_count k acc) acc.
Proof.
  unfold JSX.get_count. induction acc as [|[k0 m] t IH]; simpl; [lia|].
  destruct (eqb k0 k) eqn:E0; simpl.
  - apply eqb_spec in E0. subst. intros _. left. reflexivity.
  - intro H. right. apply IH, H.
Qed.

(** What [countBy] returns: one entry per key that occurs, in the order of
    first occurrence, holding the number of occurrences. *)
Lemma countBy_spec {A} (key : A -> K) (l : list A) :
  map fst (JSX.countBy eqb key l) = JSX.Set_of eqb (map key l) /\
  NoDup (map fst (JSX.countBy eqb key l)) /\
  (forall k n, In (k, n) (JSX.countBy eqb key l) <->
               n = count_of key k l /\ (1 <= n)%nat) /\
  list_sum (map snd (JSX.countBy eqb key l)) = length l.
Proof.
  destruct (fold_bump key l []) as (H1 & H2 & H3 & H4).
  fold (JSX.countBy eqb key l) in H1, H2, H3, H4.
  assert (N : NoDup (map fst (JSX.countBy eqb key l))).
  { rewrite H1. apply (fold_set_add (map key l) []). constructor. }
  split; [exact H1|]. split; [exact N|]. split; [|exact H3].
  intros k n. split.
  - intro I. split.
    + rewrite <- (get_count_In k n _ N I), H2. reflexivity.
    + specialize (H4 (Forall_nil _)). rewrite Forall_forall in H4.
      apply (H4 _ I).
  - intros [-> P]. specialize (H2 k). simpl in H2.
    rewrite <- H2. apply In_get_count. rewrite H2. exact P.
Qed.

End KeyedFacts.

Lemma state_eqb_spec (a b : EmotionalState) : state_eqb a b = true <-> a = b.
Proof. destruct a, b; simpl; split; intro H; try reflexivity; discriminate. Qed.

Lemma list_sum_map_add {A} (f g : A -> nat) (l : list A) :
  list_sum (map (fun x => (f x + g x)%nat) l) =
  (list_sum (map f l) + list_sum (map g l))%nat.
Proof. induction l as [|x l IH]; simpl; [reflexivity|]. rewrite IH. lia. Qed.

Lemma indicator_sum (k : string) (S0 : list string) :
  NoDup S0 -> In k S0 ->
  list_sum (map (fun s => if String.eqb k s then 1 else 0)%nat S0) = 1%nat.
Proof.
  induction 1 as [|s S1 Hs HN IH]; intro I; [destruct I|].
  simpl. destruct I as [->|I].
  - rewrite String.eqb_refl.
    assert (Z0 : list_sum (map (fun s => if String.eqb k s then 1 else 0)%nat S1) = 0%nat).
    { clear IH HN. induction S1 as [|t S1 IH]; simpl; [reflexivity|].
      destruct (String.eqb k t) eqn:E.
      - apply String.eqb_eq in E. subst. exfalso. apply Hs. left. reflexivity.
      - apply IH. intro I. apply Hs. right. exact I. }
    rewrite Z0. reflexivity.
  - destruct (String.eqb k s) eqn:E.
    + apply String.eqb_eq in E. subst. contradiction.
    + apply IH, I.
Qed.

Lemma session_partition {A} (key : A -> string) (S0 : list string) (l : list A) :
  NoDup S0 -> (forall x, In x l -> In (key x) S0) ->
  list_sum (map (fun s => length (filter (fun x => String.eqb (key x) s) l)) S0)
  = length l.
Proof.
  intros N H. induction l as [|x l IH].
  - clear N H. simpl. induction S0 as [|s S0 IH]; simpl; [reflexivity|exact IH].
  - rewrite (map_ext _ (fun s => ((if String.eqb (key x) s then 1 else 0)
               + length (filter (fun y => String.eqb (key y) s) l))%nat)).
    + rewrite list_sum_map_add, indicator_sum, IH.
      * reflexivity.
      * intros y Hy. apply H. right. exact Hy.
      * exact N.
      * apply H. left. reflexivity.
    + intro s. simpl. destruct (String.eqb (key x) s); reflexivity.
Qed.

(** ** The data logger *)

Lemma sessions_cover (data : list ER.EmotionResult)
    (voiceData : list VoiceAnalysis) :
  NoDup (DataLogger.sessions data voiceData) /\
  (forall e, In e data -> In (ER.sessionId e) (DataLogger.sessions data voiceData)) /\
  (forall v, In v voiceData -> In (sessionId v) (DataLogger.sessions data voiceData)).
Proof.
  unfold DataLogger.sessions.
  destruct (Set_of_spec string String.eqb String.eqb_eq
              (map ER.sessionId data ++ map sessionId voiceData)) as [N I].
  split; [exact N|].
  split; intros x Hx; apply I, in_app_iff; [left|right]; apply in_map, Hx.
Qed.

(** X14: the session list holds every session id of the emotion and voice
    records exactly once. *)
Theorem sessions_distinct (data : list ER.EmotionResult)
    (voiceData : list VoiceAnalysis) :
  NoDup (DataLogger.sessions data voiceData) /\
  forall s, In s (DataLogger.sessions data voiceData) <->
    (exists e, In e data /\ ER.sessionId e = s) \/
    (exists v, In v voiceData /\ sessionId v = s).
Proof.
  unfold DataLogger.sessions.
  destruct (Set_of_spec string String.eqb String.eqb_eq
              (map ER.sessionId data ++ map sessionId voiceData)) as [N I].
  split; [exact N|]. intro s. rewrite I, in_app_iff, !in_map_iff.
  split; intros [(x & H1 & H2)|(x & H1 & H2)]; [left|right|left|right];
    exists x; auto.
Qed.

(** X15: selecting [all] shows every record; selecting a session shows
    exactly the records of that session, in their order; and as long as no
    session is called [all], the per-session views of the session list
    partition the records. *)
Theorem filtered_views_partition (data : list ER.EmotionResult)
    (voiceData : list VoiceAnalysis) :
  DataLogger.filteredData "all" data = data /\
  DataLogger.filteredVoiceData "all" voiceData = voiceData /\
  (forall sel, sel <> "all"%string ->
     DataLogger.filteredData sel data
       = filter (fun e => String.eqb (ER.sessionId e) sel) data /\
     (forall e, In e (DataLogger.filteredData sel data) <->
                In e data /\ ER.sessionId e = sel) /\
     (forall v, In v (DataLogger.filteredVoiceData sel voiceData) <->
                In v voiceData /\ sessionId v = sel)) /\
  (~ In "all"%string (DataLogger.sessions data voiceData) ->
     list_sum (map (fun s => length (DataLogger.filteredData s data))
                 (DataLogger.sessions data voiceData)) = length data /\
     list_sum (map (fun s => length (DataLogger.filteredVoiceData s voiceData))
                 (DataLogger.sessions data voiceData)) = length voiceData).
Proof.
  split; [reflexivity|]. split; [reflexivity|]. split.
  - intros sel Hsel. unfold DataLogger.filteredData, DataLogger.filteredVoiceData.
    replace (String.eqb sel "all") with false
      by (symmetry; apply String.eqb_neq, Hsel).
    split; [reflexivity|].
    split; intro x; rewrite filter_In, String.eqb_eq; reflexivity.
  - intro Hall.
    destruct (sessions_cover data voiceData) as (N & Hd & Hv).
    assert (F : forall s, In s (DataLogger.sessions data voiceData) ->
                String.eqb s "all" = false).
    { intros s Hs. apply String.eqb_neq. intros ->. exact (Hall Hs). }
    split.
    + rewrite <- (session_partition ER.sessionId _ data N Hd).
      f_equal. apply map_ext_in. intros s Hs. unfold DataLogger.filteredData.
      rewrite (F s Hs). reflexivity.
    + rewrite <- (session_partition sessionId _ voiceData N Hv).
      f_equal. apply map_ext_in. intros s Hs. unfold DataLogger.filteredVoiceData.
      rewrite (F s Hs). reflexivity.
Qed.

(** X16: the statistics of the logger hold one entry per emotion (or state)
    that occurs, each with the number of records that carry it, and the
    counts add up to the number of records. *)
Theorem logger_stats_count (records : list ER.EmotionResult)
    (voiceRecords : list VoiceAnalysis) :
  (NoDup (map fst (DataLogger.emotionStats records)) /\
   (forall e n, In (e, n) (DataLogger.emotionStats records) <->
      n = length (filter (fun r => String.eqb (ER.emotion r) e) records) /\
      (1 <= n)%nat) /\
   list_sum (map snd (DataLogger.emotionStats records)) = length records) /\
  (NoDup (map fst (DataLogger.voiceStats voiceRecords)) /\
   (forall s n, In (s, n) (DataLogger.voiceStats voiceRecords) <->
      n = length (filter (fun r => state_eqb (emotionalState r) s) voiceRecords) /\
      (1 <= n)%nat) /\
   list_sum (map snd (DataLogger.voiceStats voiceRecords)) = length voiceRecords).
Proof.
  split.
  - destruct (countBy_spec string String.eqb String.eqb_eq ER.emotion records)
      as (_ & N & C & T).
    split; [exact N|]. split; [exact C|exact T].
  - destruct (countBy_spec EmotionalState state_eqb state_eqb_spec
                emotionalState voiceRecords) as (_ & N & C & T).
    split; [exact N|]. split; [exact C|exact T].
Qed.

(** ** The dashboard *)

Lemma sort_desc_snoc {K} (l : list (K * nat)) (x : K * nat) :
  JSX.sort_desc (l ++ [x]) = JSX.insert_desc x (JSX.sort_desc l).
Proof. unfold JSX.sort_desc. rewrite fold_left_app. reflexivity. Qed.

(** The head of the stable descending order is the first entry that holds
    the largest count. *)
Lemma sort_desc_head {K} (l : list (K * nat)) :
  match JSX.sort_desc l with
  | [] => l = []
  | x :: _ =>
      exists l1 l2, l = l1 ++ x :: l2 /\
        (forall y, In y l1 -> (snd y < snd x)%nat) /\
        (forall y, In y l2 -> (snd y <= snd x)%nat)
  end.
Proof.
  induction l as [|x l IH] using rev_ind; [reflexivity|].
  rewrite sort_desc_snoc.
  destruct (JSX.sort_desc l) as [|y t].
  - subst l. simpl. exists [], []. repeat split; intros z [].
  - destruct IH as (l1 & l2 & -> & H1 & H2). simpl.
    destruct (snd y <? snd x)%nat eqn:E.
    + apply Nat.ltb_lt in E. exists (l1 ++ y :: l2), []. split; [reflexivity|].
      split; [|intros z []].
      intros z Hz. apply in_app_iff in Hz. destruct Hz as [Hz|[<-|Hz]].
      * specialize (H1 z Hz). lia.
      * exact E.
      * specialize (H2 z Hz). lia.
    + apply Nat.ltb_ge in E. exists l1, (l2 ++ [x]).
      split; [rewrite <- app_assoc; reflexivity|]. split; [exact H1|].
      intros z Hz. apply in_app_iff in Hz. destruct Hz as [Hz|[<-|[]]].
      * apply H2, Hz.
      * exact E.
Qed.

(** X17: the most common voice state is [calm] when there is no record.
    Otherwise it is a state that occurs, no state occurs more often, and
    among the states that occur as often it is the one whose first record
    comes first. *)
Theorem mostCommonVoiceState_first_maximum (voiceData : list VoiceAnalysis) :
  let count s := JSX.count_of state_eqb emotionalState s voiceData in
  let m := Dashboard.mostCommonVoiceState voiceData in
  (voiceData = [] -> m = calm) /\
  (voiceData <> [] ->
     (1 <= count m)%nat /\
     (forall s, (count s <= count m)%nat) /\
     exists before after,
       JSX.Set_of state_eqb (map emotionalState voiceData) = before ++ m :: after /\
       (forall s, In s before -> (count s < count m)%nat)).
Proof.
  intros count m. split; [intros ->; reflexivity|].
  intro Hne. unfold m, Dashboard.mostCommonVoiceState, Dashboard.voiceStateCounts.
  destruct (countBy_spec EmotionalState state_eqb state_eqb_spec
              emotionalState voiceData) as (Hk & N & C & T).
  pose proof (sort_desc_head (JSX.countBy state_eqb emotionalState voiceData)) as Hs.
  destruct (JSX.sort_desc (JSX.countBy state_eqb emotionalState voiceData))
    as [|[s n] t].
  - rewrite Hs in T. simpl in T. destruct voiceData; [contradiction|discriminate].
  - destruct Hs as (l1 & l2 & E & H1 & H2).
    assert (Is : In (s, n) (JSX.countBy state_eqb emotionalState voiceData)).
    { rewrite E. apply in_app_iff. right. left. reflexivity. }
    apply C in Is. destruct Is as [En Pn]. fold (count s) in En. subst n.
    assert (Hle : forall s', (count s' <= count s)%nat).
    { intro s'. destruct (Nat.eq_dec (count s') 0) as [Z0|NZ]; [lia|].
      assert (Is' : In (s', count s') (JSX.countBy state_eqb emotionalState voiceData)).
      { apply C. split; [reflexivity|lia]. }
      rewrite E in Is'. apply in_app_iff in Is'. destruct Is' as [I|[I|I]].
      - specialize (H1 _ I). simpl in H1. lia.
      - inversion I. lia.
      - specialize (H2 _ I). simpl in H2. lia. }
    split; [exact Pn|]. split; [exact Hle|].
    exists (map fst l1), (map fst l2). split.
    + rewrite <- Hk, E, map_app. reflexivity.
    + intros s' Hs'. apply in_map_iff in Hs'. destruct Hs' as ([s0 n0] & <- & I).
      specialize (H1 _ I). simpl in *.
      assert (I' : In (s0, n0) (JSX.countBy state_eqb emotionalState voiceData)).
      { rewrite E. apply in_app_iff. left. exact I. }
      apply C in I'. destruct I' as [-> _]. exact H1.
Qed.

(** The four switches of [calculateDeceptionRisk], in the order of the
    source. *)
Lemma risk_cases (b1 b2 b3 b4 : bool) (m1 m2 m3 m4 : string) :
  let s := Dashboard.add_factor b4 20 m4
             (Dashboard.add_factor b3 35 m3
                (Dashboard.add_factor b2 25 m2
                   (Dashboard.add_factor b1 30 m1 (0, [])))) in
  0 <= JS.Math_min (fst s) 100 /\ JS.Math_min (fst s) 100 <= 100 /\
  (snd s = [] <-> JS.Math_min (fst s) 100 == 0) /\
  (length (snd s) = 4%nat <-> JS.Math_min (fst s) 100 == 100) /\
  (length (snd s) <= 4)%nat /\
  (b1 = false -> b2 = false -> b3 = false -> b4 = false ->
   (JS.Math_min (fst s) 100, snd s) = (0, [])).
Proof.
  destruct b1, b2, b3, b4; vm_compute;
    repeat split; intros; try discriminate; try reflexivity; try lia;
    try (exfalso; auto; fail).
Qed.

(** X18: the deception risk score lies between 0 and 100; it is 0 exactly
    when no factor is reported and 100 exactly when all four are. *)
Theorem calculateDeceptionRisk_score (data : list ER.EmotionResult)
    (voiceData : list VoiceAnalysis) :
  let r := Dashboard.calculateDeceptionRisk data voiceData in
  0 <= fst r /\ fst r <= 100 /\
  (snd r = [] <-> fst r == 0) /\
  (length (snd r) = 4%nat <-> fst r == 100) /\
  (length (snd r) <= 4)%nat.
Proof.
  unfold Dashboard.calculateDeceptionRisk. cbv zeta. cbn [fst snd].
  match goal with
  | |- context [Dashboard.add_factor ?b4 20 ?m4
                  (Dashboard.add_factor ?b3 35 ?m3
                     (Dashboard.add_factor ?b2 25 ?m2
                        (Dashboard.add_factor ?b1 30 ?m1 (0, []))))] =>
      destruct (risk_cases b1 b2 b3 b4 m1 m2 m3 m4) as (H1 & H2 & H3 & H4 & H5 & _)
  end.
  repeat split; try apply H3; try apply H4; assumption.
Qed.

(** X19: the risk depends only on the last five emotion records and the
    last three voice records; with at most two emotion records and at most
    one voice record, not labelled deceptive, it is 0 with no factor. *)
Theorem calculateDeceptionRisk_recent (data : list ER.EmotionResult)
    (voiceData : list VoiceAnalysis) :
  Dashboard.calculateDeceptionRisk data voiceData =
  Dashboard.calculateDeceptionRisk (JS.slice_last 5 data)
    (JS.slice_last 3 voiceData) /\
  ((length data <= 2)%nat -> (length voiceData <= 1)%nat ->
   Forall (fun v => emotionalState v <> deceptive) voiceData ->
   Dashboard.calculateDeceptionRisk data voiceData = (0, [])).
Proof.
  split.
  - unfold Dashboard.calculateDeceptionRisk.
    rewrite !slice_last_slice_last by lia. reflexivity.
  - intros Ld Lv Hd. unfold Dashboard.calculateDeceptionRisk. cbv zeta.
    rewrite (slice_last_short 5 data) by lia.
    rewrite (slice_last_short 3 voiceData) by lia.
    match goal with
    | |- context [Dashboard.add_factor ?b4 20 ?m4
                    (Dashboard.add_factor ?b3 35 ?m3
                       (Dashboard.add_factor ?b2 25 ?m2
                          (Dashboard.add_factor ?b1 30 ?m1 (0, []))))] =>
        destruct (risk_cases b1 b2 b3 b4 m1 m2 m3 m4) as (_ & _ & _ & _ & _ & H)
    end.
    apply H.
    + apply Nat.ltb_ge. etransitivity; [apply filter_length_le|exact Ld].
    + apply Nat.ltb_ge. etransitivity; [apply filter_length_le|exact Lv].
    + apply Nat.ltb_ge. apply Nat.le_0_r. apply filter_length_none.
      eapply Forall_impl; [|exact Hd]. intros v Hv.
      destruct (state_eqb (emotionalState v) deceptive) eqn:E; [|reflexivity].
      apply state_eqb_spec in E. contradiction.
    + apply Nat.ltb_ge. etransitivity; [apply filter_length_le|exact Lv].
Qed.

Lemma calculateDeceptionRisk_recent_witness :
  Dashboard.calculateDeceptionRisk
    [{| ER.emotion := "angry"; ER.confidence := 7 # 10; ER.sessionId := "session_1" |}]
    [] = (0, []).
Proof.
  apply (proj2 (calculateDeceptionRisk_recent _ _)).
  - simpl. lia.
  - simpl. lia.
  - constructor.
Defined.

(** ** The dashboard on the analyser's records *)

Lemma classified_filters (a : VoiceAnalysis) :
  classified a ->
  JS.gtb (stressLevel a) (7 # 10) = state_eqb (emotionalState a) stressed /\
  (state_eqb (emotionalState a) deceptive = true ->
     JS.ltb (confidenceLevel a) (4 # 10) = true /\
     JS.gtb (stressLevel a) (7 # 10) = false).
Proof.
  unfold classified. intros ->. unfold determineEmotionalState.
  js_cmp; simpl; split; try reflexivity; intro H; try discriminate H;
    split; try reflexivity; exfalso; lra.
Qed.

(** X20: every record the analyser emits carries the classifier's verdict
    on its own scores.  On such records the dashboard's high-stress test
    (stress > 0.7) selects exactly the records labelled [stressed], and a
    record labelled [deceptive] is a low-confidence record (confidence <
    0.4) that is not a high-stress record. *)
Theorem dashboard_filters_on_emitted_records :
  (forall pow_frac sqrt_irr rendered store sid f a,
     fst (analyzeAudio pow_frac sqrt_irr rendered store sid f) = Some a ->
     classified a) /\
  (forall voiceData, Forall classified voiceData ->
     filter (fun v => JS.gtb (stressLevel v) (7 # 10)) voiceData =
     filter (fun v => state_eqb (emotionalState v) stressed) voiceData /\
     incl (filter (fun v => state_eqb (emotionalState v) deceptive) voiceData)
          (filter (fun v => JS.ltb (confidenceLevel v) (4 # 10)) voiceData) /\
     (forall v,
        In v (filter (fun v => state_eqb (emotionalState v) deceptive) voiceData) ->
        ~ In v (filter (fun v => JS.gtb (stressLevel v) (7 # 10)) voiceData))).
Proof.
  split.
  - intros pow_frac sqrt_irr rendered store sid f a Ha.
    apply analyzeAudio_emits in Ha. destruct Ha as [_ ->]. reflexivity.
  - intros voiceData H. rewrite Forall_forall in H. split; [|split].
    + apply filter_ext_in. intros v Hv. apply classified_filters, H, Hv.
    + intros v Hv. apply filter_In in Hv. destruct Hv as [Hv E].
      apply filter_In. split; [exact Hv|].
      apply (classified_filters v (H v Hv)), E.
    + intros v Hv Hs. apply filter_In in Hv. destruct Hv as [Hv E].
      apply filter_In in Hs. destruct Hs as [_ Hs].
      destruct (proj2 (classified_filters v (H v Hv)) E) as [_ C]. congruence.
Qed.

Lemma mean_unit_interval {A} (f : A -> Q) (l : list A) :
  l <> [] -> Forall (fun x => unit_interval (f x)) l ->
  unit_interval (JS.reduce (fun sum item => sum + f item) 0 l / JS.len l).
Proof.
  intros Hne H. pose proof (len_pos l Hne) as Hlen.
  unfold unit_interval, JS.reduce. rewrite (fold_add_sumQ f), Qplus_0_l.
  rewrite Forall_forall in H. unfold unit_interval in H.
  assert (H0 : 0 <= sumQ (map f l)).
  { apply sumQ_map_nonneg. intros x Hx. apply H, Hx. }
  assert (H1 : sumQ (map f l) <= JS.len l * 1).
  { assert (E : JS.len l == JS.len (map f l)).
    { unfold JS.len. rewrite length_map. reflexivity. }
    rewrite E. apply sumQ_le_const. apply Forall_forall.
    intros y Hy. apply in_map_iff in Hy. destruct Hy as (x & <- & Hx).
    apply H, Hx. }
  split.
  - apply Qdiv_nonneg; lra.
  - apply Qle_shift_div_r; [exact Hlen|lra].
Qed.

(** X21: the dashboard's average stress and average voice confidence are 0
    when there is no voice record, and lie in [0,1] whenever every record's
    score does. *)
Theorem dashboard_averages_bounded (voiceData : list VoiceAnalysis) :
  (voiceData = [] ->
     Dashboard.averageStressLevel voiceData = 0 /\
     Dashboard.averageVoiceConfidence voiceData = 0) /\
  (Forall (fun a => unit_interval (stressLevel a)) voiceData ->
     unit_interval (Dashboard.averageStressLevel voiceData)) /\
  (Forall (fun a => unit_interval (confidenceLevel a)) voiceData ->
     unit_interval (Dashboard.averageVoiceConfidence voiceData)).
Proof.
  split; [intros ->; split; reflexivity|].
  unfold Dashboard.averageStressLevel, Dashboard.averageVoiceConfidence.
  destruct voiceData as [|a l]; [split; intros _; split; discriminate|].
  cbn [length Nat.ltb Nat.leb].
  split; intro H; apply mean_unit_interval; try discriminate; exact H.
Qed.

Lemma dashboard_averages_bounded_witness :
  let a := {| stressLevel := 2 # 10; confidenceLevel := 8 # 10;
              pitchVariation := 0; speechRate := 1 # 2; volumeConsistency := 1;
              emotionalState := confident; sessionId := "session_1" |} in
  let b := {| stressLevel := 8 # 10; confidenceLevel := 3 # 10;
              pitchVariation := 0; speechRate := 1 # 2; volumeConsistency := 1;
              emotionalState := stressed; sessionId := "session_1" |} in
  unit_interval (Dashboard.averageStressLevel [a; b]) /\
  unit_interval (Dashboard.averageVoiceConfidence [a; b]).
Proof.
  intros a b.
  destruct (dashboard_averages_bounded [a; b]) as (_ & H1 & H2).
  split; [apply H1|apply H2]; repeat constructor; discriminate.
Defined.

Lemma dashboard_filters_on_emitted_records_witness :
  let a := {| stressLevel := 8 # 10; confidenceLevel := 3 # 10;
              pitchVariation := 0; speechRate := 1 # 2; volumeConsistency := 1;
              emotionalState := stressed; sessionId := "session_1" |} in
  let b := {| stressLevel := 6 # 10; confidenceLevel := 3 # 10;
              pitchVariation := 45 # 100; speechRate := 1 # 2;
              volumeConsistency := 1;
              emotionalState := deceptive; sessionId := "session_1" |} in
  filter (fun v => JS.gtb (stressLevel v) (7 # 10)) [a; b] =
  filter (fun v => state_eqb (emotionalState v) stressed) [a; b].
Proof.
  intros a b.
  apply (proj2 dashboard_filters_on_emitted_records [a; b]).
  repeat constructor.
Defined.

Lemma mostCommonVoiceState_first_maximum_witness :
  let a := {| stressLevel := 8 # 10; confidenceLevel := 3 # 10;
              pitchVariation := 0; speechRate := 1 # 2; volumeConsistency := 1;
              emotionalState := stressed; sessionId := "session_1" |} in
  let b := {| stressLevel := 1 # 10; confidenceLevel := 5 # 10;
              pitchVariation := 0; speechRate := 1 # 2; volumeConsistency := 1;
              emotionalState := calm; sessionId := "session_1" |} in
  Dashboard.mostCommonVoiceState [a; b; b; a] = stressed /\
  (1 <= JSX.count_of state_eqb emotionalState
          (Dashboard.mostCommonVoiceState [a; b; b; a]) [a; b; b; a])%nat.
Proof.
  intros a b. split; [reflexivity|].
  apply (proj2 (mostCommonVoiceState_first_maximum [a; b; b; a])).
  discriminate.
Defined.

Lemma filtered_views_partition_witness :
  let e1 := {| ER.emotion := "happy"; ER.confidence := 7 # 10;
               ER.sessionId := "session_1" |} in
  let e2 := {| ER.emotion := "sad"; ER.confidence := 8 # 10;
               ER.sessionId := "session_2" |} in
  list_sum (map (fun s => length (DataLogger.filteredData s [e1; e2; e1]))
              (DataLogger.sessions [e1; e2; e1] [])) = 3%nat.
Proof.
  intros e1 e2.
  apply (proj2 (proj2 (proj2 (filtered_views_partition [e1; e2; e1] [])))).
  vm_compute. intros [H|[H|[]]]; discriminate H.
Defined.

(** ** The detectors *)

Lemma floor_between (x : Q) (lo hi : Z) :
  inject_Z lo <= x -> x < inject_Z hi -> (lo <= Qfloor x < hi)%Z.
Proof.
  intros H1 H2. split.
  - rewrite <- (Qfloor_Z lo). apply Qfloor_resp_le, H1.
  - pose proof (Qfloor_le x) as H. rewrite Zlt_Qlt. lra.
Qed.

(** X22: the command-line detector always yields one of the emotions
    happy, sad, angry, surprised and fearful (the clamp to the ends of the
    list never applies, and neutral and disgusted are never produced), with
    a confidence of at least 0.6 and less than 0.9. *)
Theorem cli_detectEmotion_range (sine random1 random2 : Q) :
  -1 <= sine -> sine <= 1 ->
  0 <= random1 -> random1 < 1 ->
  0 <= random2 -> random2 < 1 ->
  (exists e, fst (CLI.detectEmotion sine random1 random2) = Some e /\
             In e ["happy"; "sad"; "angry"; "surprised"; "fearful"]%string) /\
  6 # 10 <= snd (CLI.detectEmotion sine random1 random2) /\
  snd (CLI.detectEmotion sine random1 random2) < 9 # 10.
Proof.
  intros Hs1 Hs2 Hr1 Hr2 Hq1 Hq2. unfold CLI.detectEmotion. cbn [fst snd].
  split; [|split; lra].
  change (JS.len CLI.emotions) with (7 : Q).
  change (Z.of_nat (length CLI.emotions) - 1)%Z with 6%Z.
  set (x := (sine * (3 # 10) + (random1 - (5 # 10)) * (4 # 10) + 1) * 7 / 2).
  assert (Hx : (1 <= Qfloor x < 6)%Z).
  { assert (E : x == (sine * (3 # 10) + (random1 - (5 # 10)) * (4 # 10) + 1) * (7 # 2))
      by (unfold x; field).
    apply floor_between; rewrite E; unfold inject_Z; lra. }
  unfold JS.Math_floor.
  replace (Z.max 0 (Z.min 6 (Qfloor x))) with (Qfloor x) by lia.
  assert (C : (Qfloor x = 1 \/ Qfloor x = 2 \/ Qfloor x = 3 \/
               Qfloor x = 4 \/ Qfloor x = 5)%Z) by lia.
  destruct C as [E|[E|[E|[E|E]]]]; rewrite E; eexists;
    (split; [reflexivity|simpl; tauto]).
Qed.

Lemma cli_detectEmotion_range_witness :
  exists e, fst (CLI.detectEmotion (1 # 2) (3 # 10) (1 # 2)) = Some e /\
            In e ["happy"; "sad"; "angry"; "surprised"; "fearful"]%string.
Proof.
  apply (cli_detectEmotion_range (1 # 2) (3 # 10) (1 # 2));
    vm_compute; first [discriminate | reflexivity].
Defined.

Lemma Qfloor_half (z : Z) : Qfloor (inject_Z z + (1 # 2)) = z.
Proof.
  unfold Qfloor, Qplus, inject_Z. cbn [Qnum Qden].
  rewrite Z.mul_1_l. change (Z.pos (1 * 2)) with 2%Z.
  change (Z.pos 2) with 2%Z.
  symmetry. apply (Z.div_unique _ 2 z 1); lia.
Qed.

Lemma fl_sample_monotone (x y : Q) : x <= y -> fl_sample x <= fl_sample y.
Proof.
  intro H. unfold fl_sample.
  apply Qmult_le_compat_r; [|discriminate].
  rewrite <- Zle_Qle. apply Qfloor_resp_le.
  apply Qplus_le_l. apply Qmult_le_compat_r; [exact H|discriminate].
Qed.

Lemma fl_sample_idempotent (x : Q) : fl_sample (fl_sample x) == fl_sample x.
Proof.
  unfold fl_sample at 1.
  set (z := Qfloor (x * inject_Z (2 ^ 53) + (1 # 2))).
  assert (E : fl_sample x * inject_Z (2 ^ 53) + (1 # 2) == inject_Z z + (1 # 2)).
  { unfold fl_sample. fold z. field. discriminate. }
  rewrite E, Qfloor_half. reflexivity.
Qed.

Section WebDetector.

Variable fl : Q -> Q.
Hypothesis fl_monotone : forall x y, x <= y -> fl x <= fl y.
Hypothesis fl_idempotent : forall x, fl (fl x) == fl x.
Hypothesis fl_0 : fl 0 == 0.
Hypothesis fl_1 : fl 1 == 1.
Hypothesis literals_sum : fl (4 # 10) + fl (6 # 10) <= 1.

(** X23: the mock detector of the web component always yields an emotion
    of its list, never [undefined], with a confidence between the double
    0.6 and 1, both included (for a rounding that is monotone, leaves
    doubles, 0 and 1 unchanged, and takes 0.4 and 0.6 to doubles whose sum
    is at most 1); and every emotion of the list is yielded for some random
    value. *)
Theorem web_detectEmotion_range :
  (forall random1 random2,
     0 <= random1 -> random1 < 1 -> 0 <= random2 -> random2 < 1 ->
     (exists e, fst (EmotionDetector.detectEmotion fl random1 random2) = Some e /\
                In e EmotionDetector.emotions) /\
     fl (6 # 10) <= snd (EmotionDetector.detectEmotion fl random1 random2) /\
     snd (EmotionDetector.detectEmotion fl random1 random2) <= 1) /\
  (forall e random2, In e EmotionDetector.emotions ->
     exists random1, 0 <= random1 /\ random1 < 1 /\
       fst (EmotionDetector.detectEmotion fl random1 random2) = Some e).
Proof.
  split.
  - intros r1 r2 H1 H2 H3 H4. unfold EmotionDetector.detectEmotion. cbn [fst snd].
    split.
    + change (JS.len EmotionDetector.emotions) with (7 : Q).
      assert (Hx : (0 <= Qfloor (r1 * 7) < 7)%Z).
      { apply floor_between; unfold inject_Z; lra. }
      unfold JS.Math_floor.
      assert (C : (Qfloor (r1 * 7) = 0 \/ Qfloor (r1 * 7) = 1 \/
                   Qfloor (r1 * 7) = 2 \/ Qfloor (r1 * 7) = 3 \/
                   Qfloor (r1 * 7) = 4 \/ Qfloor (r1 * 7) = 5 \/
                   Qfloor (r1 * 7) = 6)%Z) by lia.
      destruct C as [E|[E|[E|[E|[E|[E|E]]]]]]; rewrite E; eexists;
        (split; [reflexivity|simpl; tauto]).
    + set (c04 := fl (4 # 10)). set (c06 := fl (6 # 10)).
      assert (P04 : 0 <= c04).
      { rewrite <- fl_0. apply fl_monotone. discriminate. }
      assert (T0 : 0 <= fl (r2 * c04)).
      { rewrite <- fl_0. apply fl_monotone. apply Qmult_le_0_compat; assumption. }
      assert (T1 : fl (r2 * c04) <= c04).
      { unfold c04 at 2. rewrite <- (fl_idempotent (4 # 10)). fold c04.
        apply fl_monotone.
        setoid_replace c04 with (1 * c04) at 2 by ring.
        apply Qmult_le_compat_r; [apply Qlt_le_weak, H4|exact P04]. }
      split.
      * unfold c06 at 1. rewrite <- (fl_idempotent (6 # 10)). fold c06.
        apply fl_monotone. lra.
      * rewrite <- fl_1. apply fl_monotone. unfold c04, c06 in *. lra.
  - intros e r2 He. simpl in He.
    destruct He as [<-|[<-|[<-|[<-|[<-|[<-|[<-|[]]]]]]]].
    + exists 0. repeat split; try discriminate; reflexivity.
    + exists (1 # 7). repeat split; try discriminate; reflexivity.
    + exists (2 # 7). repeat split; try discriminate; reflexivity.
    + exists (3 # 7). repeat split; try discriminate; reflexivity.
    + exists (4 # 7). repeat split; try discriminate; reflexivity.
    + exists (5 # 7). repeat split; try discriminate; reflexivity.
    + exists (6 # 7). repeat split; try discriminate; reflexivity.
Qed.

End WebDetector.

Lemma web_detectEmotion_range_witness :
  (exists e, fst (EmotionDetector.detectEmotion fl_sample (1 # 2) (1 # 2)) = Some e /\
             In e EmotionDetector.emotions) /\
  fl_sample (6 # 10) <= snd (EmotionDetector.detectEmotion fl_sample (1 # 2) (1 # 2)) /\
  snd (EmotionDetector.detectEmotion fl_sample (1 # 2) (1 # 2)) <= 1.
Proof.
  assert (F0 : fl_sample 0 == 0) by (vm_compute; reflexivity).
  assert (F1 : fl_sample 1 == 1) by (vm_compute; reflexivity).
  assert (FS : fl_sample (4 # 10) + fl_sample (6 # 10) <= 1)
    by (vm_compute; discriminate).
  apply (proj1 (web_detectEmotion_range fl_sample fl_sample_monotone
                  fl_sample_idempotent F0 F1 FS) (1 # 2) (1 # 2));
    vm_compute; first [discriminate | reflexivity].
Defined.

(** With the sample rounding the confidence reaches 1 at the largest value
    [Math.random()] returns, 1 - 2^-53. *)
Example web_confidence_reaches_1 :
  snd (EmotionDetector.detectEmotion fl_sample (1 # 2)
         (1 - 1 / inject_Z (2 ^ 53))) == 1.
Proof. vm_compute. reflexivity. Qed.

(** ** The command-line history and displays *)

Lemma cli_run_snoc (st : CLI.State) (ds : list CLI.Detection) (d : CLI.Detection) :
  cli_run st (ds ++ [d]) = CLI.updateAnalysis (cli_run st ds) d.
Proof. unfold cli_run. rewrite fold_left_app. reflexivity. Qed.

Lemma push_then_shift {A} (ds : list A) (d : A) :
  (let history := JS.slice_last 20 ds ++ [d] in
   if (20 <? length history)%nat then tl history else history)
  = JS.slice_last 20 (ds ++ [d]).
Proof.
  cbv zeta. rewrite length_app, slice_last_length. simpl length.
  unfold JS.slice_last. rewrite length_app. simpl length.
  destruct (Nat.lt_ge_cases (length ds) 20) as [L|L].
  - replace (20 <? Nat.min 20 (length ds) + 1)%nat with false
      by (symmetry; apply Nat.ltb_ge; lia).
    replace (length ds - 20)%nat with 0%nat by lia.
    replace (length ds + 1 - 20)%nat with 0%nat by lia. reflexivity.
  - replace (20 <? Nat.min 20 (length ds) + 1)%nat with true
      by (symmetry; apply Nat.ltb_lt; lia).
    rewrite skipn_app.
    replace (length ds + 1 - 20 - length ds)%nat with 0%nat by lia.
    replace (length ds + 1 - 20)%nat with (S (length ds - 20)) by lia.
    simpl (skipn 0 [d]).
    assert (Hlen : length (skipn (length ds - 20) ds) = 20%nat)
      by (rewrite length_skipn; lia).
    change (S (length ds - 20)) with (1 + (length ds - 20))%nat.
    rewrite <- (skipn_skipn 1 (length ds - 20) ds).
    destruct (skipn (length ds - 20) ds) as [|x t]; [discriminate Hlen|].
    reflexivity.
Qed.

(** X24: after any sequence of detections the command-line state counts
    all of them, keeps the last 20 in order as its history, and shows the
    emotion and confidence of the latest one. *)
Theorem cli_history_last_20 (detections : list CLI.Detection) :
  let st := cli_run CLI.initialState detections in
  CLI.detectionCount st = length detections /\
  CLI.emotionHistory st = JS.slice_last 20 detections /\
  (length (CLI.emotionHistory st) <= 20)%nat /\
  (forall d, last detections d =
             {| CLI.emotion := CLI.currentEmotion st;
                CLI.confidence := CLI.currentConfidence st |} \/
             detections = []).
Proof.
  induction detections as [|d ds IH] using rev_ind.
  - simpl. repeat split; try reflexivity; try lia. intro d. right. reflexivity.
  - cbv zeta in *. rewrite cli_run_snoc.
    destruct IH as (H1 & H2 & H3 & _).
    unfold CLI.updateAnalysis. cbn [CLI.detectionCount CLI.emotionHistory
      CLI.currentEmotion CLI.currentConfidence].
    rewrite H1, H2, push_then_shift.
    split; [rewrite length_app; simpl; lia|].
    split; [reflexivity|].
    split; [rewrite slice_last_length; lia|].
    intro d0. left. rewrite last_last. destruct d. reflexivity.
Qed.

Lemma stress_positive_disjoint (e : string) :
  JSX.includes ["angry"; "fearful"; "disgusted"]%string e = true ->
  JSX.includes ["happy"; "surprised"]%string e = false.
Proof.
  unfold JSX.includes. simpl. rewrite !orb_false_r.
  intro H. apply orb_true_iff in H. destruct H as [H|H];
    [|apply orb_true_iff in H; destruct H as [H|H]];
    apply String.eqb_eq in H; subst; reflexivity.
Qed.

Lemma filter_disjoint_length {A} (p q : A -> bool) (l : list A) :
  (forall x, p x = true -> q x = false) ->
  (length (filter p l) + length (filter q l) <= length l)%nat.
Proof.
  intro H. induction l as [|x l IH]; simpl; [lia|].
  destruct (p x) eqn:P.
  - rewrite (H x P). simpl. lia.
  - destruct (q x); simpl; lia.
Qed.

(** X25: the assessment reads [High stress indicators detected] exactly
    when at least four of the last five detections are angry, fearful or
    disgusted, [Positive emotional state] exactly when at least four are
    happy or surprised, and is neutral otherwise; the two cases exclude
    each other, and with fewer than four detections it is neutral. *)
Theorem getpsychologicalAssessment_cases (st : CLI.State) :
  (recent_stress st + recent_positive st <= 5)%nat /\
  ((4 <= recent_stress st)%nat ->
     CLI.getpsychologicalAssessment st
       = ("red", "High stress indicators detected")%string) /\
  ((4 <= recent_positive st)%nat ->
     CLI.getpsychologicalAssessment st
       = ("green", "Positive emotional state")%string) /\
  ((recent_stress st < 4)%nat -> (recent_positive st < 4)%nat ->
     CLI.getpsychologicalAssessment st
       = ("yellow", "Neutral psychological state")%string) /\
  ((length (CLI.emotionHistory st) < 4)%nat ->
     CLI.getpsychologicalAssessment st
       = ("yellow", "Neutral psychological state")%string).
Proof.
  assert (Hsum : (recent_stress st + recent_positive st
                  <= length (JS.slice_last 5 (CLI.emotionHistory st)))%nat).
  { unfold recent_stress, recent_positive. apply filter_disjoint_length.
    intros x Hx. apply stress_positive_disjoint, Hx. }
  assert (Hlen : (length (JS.slice_last 5 (CLI.emotionHistory st))
                  <= Nat.min 5 (length (CLI.emotionHistory st)))%nat).
  { rewrite slice_last_length. lia. }
  unfold CLI.getpsychologicalAssessment. cbv zeta.
  fold (recent_stress st). fold (recent_positive st).
  split; [lia|].
  split; [|split; [|split]].
  - intro H. replace (3 <? recent_stress st)%nat with true
      by (symmetry; apply Nat.ltb_lt; lia). reflexivity.
  - intro H. replace (3 <? recent_stress st)%nat with false
      by (symmetry; apply Nat.ltb_ge; lia).
    replace (3 <? recent_positive st)%nat with true
      by (symmetry; apply Nat.ltb_lt; lia). reflexivity.
  - intros H1 H2. replace (3 <? recent_stress st)%nat with false
      by (symmetry; apply Nat.ltb_ge; lia).
    replace (3 <? recent_positive st)%nat with false
      by (symmetry; apply Nat.ltb_ge; lia). reflexivity.
  - intro H. replace (3 <? recent_stress st)%nat with false
      by (symmetry; apply Nat.ltb_ge; lia).
    replace (3 <? recent_positive st)%nat with false
      by (symmetry; apply Nat.ltb_ge; lia). reflexivity.
Qed.

(** X26: the confidence bar is drawn exactly when 0 <= confidence < 1.05:
    it then has floor(20 * confidence) full blocks and 20 glyphs in all;
    below 0 or from 1.05 on, [repeat] is asked for a negative count and
    raises. *)
Theorem confidenceBars_total (st : CLI.State) :
  (0 <= CLI.currentConfidence st -> CLI.currentConfidence st < 105 # 100 ->
   exists bar empty,
     CLI.confidenceBars st = Some (bar, empty) /\
     Z.of_nat (length bar) = Qfloor (CLI.currentConfidence st * 20) /\
     (length bar + length empty = 20)%nat /\
     Forall (eq CLI.full_block) bar /\ Forall (eq CLI.light_shade) empty) /\
  (CLI.currentConfidence st < 0 \/ 105 # 100 <= CLI.currentConfidence st ->
   CLI.confidenceBars st = None).
Proof.
  unfold CLI.confidenceBars, CLI.repeat_glyph, JS.Math_floor.
  set (c := CLI.currentConfidence st). split.
  - intros H0 H1.
    assert (Hf : (0 <= Qfloor (c * 20) < 21)%Z).
    { apply floor_between; unfold inject_Z; lra. }
    replace (Qfloor (c * 20) <? 0)%Z with false by (symmetry; apply Z.ltb_ge; lia).
    replace (20 - Qfloor (c * 20) <? 0)%Z with false
      by (symmetry; apply Z.ltb_ge; lia).
    eexists. eexists. split; [reflexivity|].
    rewrite !repeat_length.
    split; [lia|]. split; [lia|].
    split; apply Forall_forall; intros x Hx; apply repeat_spec in Hx;
      symmetry; exact Hx.
  - intros [H|H].
    + assert (Hf : (Qfloor (c * 20) < 0)%Z).
      { pose proof (Qfloor_le (c * 20)) as L. rewrite Zlt_Qlt.
        unfold inject_Z at 2. lra. }
      replace (Qfloor (c * 20) <? 0)%Z with true by (symmetry; apply Z.ltb_lt; lia).
      reflexivity.
    + assert (Hf : (21 <= Qfloor (c * 20))%Z).
      { rewrite <- (Qfloor_Z 21). apply Qfloor_resp_le. unfold inject_Z. lra. }
      replace (Qfloor (c * 20) <? 0)%Z with false by (symmetry; apply Z.ltb_ge; lia).
      replace (20 - Qfloor (c * 20) <? 0)%Z with true
        by (symmetry; apply Z.ltb_lt; lia).
      reflexivity.
Qed.

(** X27: after a detection whose emotion is one of the seven the detector
    knows, the thought box is refreshed unless the emotion is fearful,
    which has no mapping; the risk colour is green, cyan or yellow and
    never red. *)
Theorem thought_display_after_detection (st : CLI.State) (d : CLI.Detection) :
  In (CLI.emotion d) CLI.emotions ->
  (CLI.riskColor (CLI.updateAnalysis st d) = None <->
     CLI.emotion d = "fearful"%string) /\
  CLI.riskColor (CLI.updateAnalysis st d) <> Some "red"%string /\
  (CLI.riskColor (CLI.updateAnalysis st d) = Some "yellow"%string <->
     CLI.emotion d = "angry"%string).
Proof.
  unfold CLI.riskColor, CLI.updateAnalysis. cbn [CLI.currentEmotion].
  simpl. intros [<-|[<-|[<-|[<-|[<-|[<-|[<-|[]]]]]]]]; vm_compute;
    repeat split; intros; try discriminate; try reflexivity.
Qed.

Lemma getpsychologicalAssessment_cases_witness :
  CLI.getpsychologicalAssessment angry_state
  = ("red", "High stress indicators detected")%string.
Proof.
  apply (proj1 (proj2 (getpsychologicalAssessment_cases angry_state))).
  vm_compute. lia.
Defined.

Lemma confidenceBars_total_witness :
  exists bar empty,
    CLI.confidenceBars angry_state = Some (bar, empty) /\
    Z.of_nat (length bar) = Qfloor (CLI.currentConfidence angry_state * 20) /\
    (length bar + length empty = 20)%nat /\
    Forall (eq CLI.full_block) bar /\ Forall (eq CLI.light_shade) empty.
Proof.
  apply (proj1 (confidenceBars_total angry_state)).
  - vm_compute. discriminate.
  - vm_compute. reflexivity.
Defined.

Lemma thought_display_after_detection_witness :
  CLI.riskColor
    (CLI.updateAnalysis CLI.initialState
       {| CLI.emotion := "sad"; CLI.confidence := 7 # 10 |})
  <> Some "red"%string.
Proof.
  apply (thought_display_after_detection CLI.initialState
           {| CLI.emotion := "sad"; CLI.confidence := 7 # 10 |}).
  simpl. tauto.
Defined.
